(** * Feed-forward classifier notebooks: training loop and checkpoints

    A shallow embedding of the code cells of
    [intro-to-pytorch/Part 3 - Training Neural Networks (Exercises).ipynb] and
    [intro-to-pytorch/Part 6 - Saving and Loading Models.ipynb].

    Conventions of the embedding:
    - a tensor is a shape (a list of Python integers) with a flat, row-major
      list of entries; the entries are read as real numbers, so every
      arithmetic statement below is about exact arithmetic;
    - a Python exception is a value of [Exn], and a computation that may raise
      has type [result A];
    - the automatic-differentiation engine, the random initialiser of the
      layers and the dropout draws are parameters of the development. *)

From Stdlib Require Import String Ascii Reals ZArith Bool Lia Lra List.
From Stdlib Require Import Decimal DecimalString DecimalNat.
Import ListNotations.

(** ** Exceptions and results *)

(** The entries of the message of the [RuntimeError] that
    [Module.load_state_dict] raises. *)
Inductive LoadMsg : Type :=
| MissingKeys (keys : list string)
| UnexpectedKeys (keys : list string)
| SizeMismatch (key : string) (checkpoint_shape model_shape : list Z).

Inductive Message : Type :=
| LoadStateDict (msgs : list LoadMsg)
| MatMul (mat1 mat2 : list Z)
| Reshape (s : list Z).

Inductive Exn : Type :=
| ConfigurationError
| RuntimeError (m : Message)
| IndexError
| ValueError
| FileNotFoundError
| ZeroDivisionError.

Inductive result (A : Type) : Type :=
| Ok (a : A)
| Raise (e : Exn).

Arguments Ok {A} a.
Arguments Raise {A} e.

Definition bind {A B : Type} (r : result A) (k : A -> result B) : result B :=
  match r with
  | Ok a => k a
  | Raise e => Raise e
  end.

Notation "x <- r ;; k" := (bind r (fun x => k))
  (at level 61, r at next level, right associativity).

(** ** Tensors *)

Record Tensor : Type := mkTensor { shape : list Z; data : list R }.

Definition numel (s : list Z) : Z := fold_right Z.mul 1%Z s.

Definition len {A : Type} (l : list A) : Z := Z.of_nat (length l).

Definition tensor_okb (t : Tensor) : bool :=
  forallb (Z.leb 0) (shape t) && (len (data t) =? numel (shape t))%Z.

Fixpoint shape_eqb (s1 s2 : list Z) : bool :=
  match s1, s2 with
  | [], [] => true
  | a :: s1', b :: s2' => (a =? b)%Z && shape_eqb s1' s2'
  | _, _ => false
  end.

(** [chunks n c d] cuts the flat storage [d] into [n] rows of [c] entries. *)
Fixpoint chunks (n c : nat) (d : list R) : list (list R) :=
  match n with
  | O => []
  | S n' => firstn c d :: chunks n' c (skipn c d)
  end.

(** The rows of a two-dimensional tensor. *)
Definition rows (t : Tensor) : list (list R) :=
  match shape t with
  | [n; c] => chunks (Z.to_nat n) (Z.to_nat c) (data t)
  | _ => []
  end.

Definition Rsum (l : list R) : R := fold_right Rplus 0%R l.

Definition dot (a b : list R) : R :=
  Rsum (map (fun p => (fst p * snd p)%R) (combine a b)).

(** ** Layers *)

(** [nn.Linear]: [weight] has shape [(out_features, in_features)] and [bias]
    has shape [(out_features)]. *)
Record Linear : Type := mkLinear {
  in_features : Z;
  out_features : Z;
  weight : Tensor;
  bias : Tensor
}.

Definition linear_okb (l : Linear) : bool :=
  (0 <? in_features l)%Z && (0 <? out_features l)%Z &&
  shape_eqb (shape (weight l)) [out_features l; in_features l] &&
  shape_eqb (shape (bias l)) [out_features l] &&
  tensor_okb (weight l) && tensor_okb (bias l).

(** One example through an affine layer: entry [o] is
    [dot x (row o of weight) + bias o]. *)
Definition affine_row (l : Linear) (x : list R) : list R :=
  map (fun wb => (dot x (fst wb) + snd wb)%R)
      (combine (chunks (Z.to_nat (out_features l)) (Z.to_nat (in_features l))
                       (data (weight l)))
               (data (bias l))).

(** The forward call of [nn.Linear] on a batch of shape [(n, k)]; the engine
    raises when [k] is not [in_features].  Every call of the notebooks passes
    a two-dimensional batch (the images are flattened by [view] first); the
    other ranks are outside this model and are mapped to the same error. *)
Definition linear_forward (l : Linear) (x : Tensor) : result Tensor :=
  match shape x with
  | [n; k] =>
      if (k =? in_features l)%Z then
        Ok (mkTensor [n; out_features l]
              (concat (map (affine_row l)
                           (chunks (Z.to_nat n) (Z.to_nat k) (data x)))))
      else Raise (RuntimeError (MatMul (shape x) [in_features l; out_features l]))
  | _ => Raise (RuntimeError (MatMul (shape x) [in_features l; out_features l]))
  end.

(** [nn.ReLU] / [F.relu]: [max(0, x)] elementwise. *)
Definition relu (x : Tensor) : Tensor :=
  mkTensor (shape x) (map (Rmax 0) (data x)).

(** [nn.LogSoftmax(dim=1)] on one row: [log (exp x_i / sum_j (exp x_j))]. *)
Definition log_softmax_row (r : list R) : list R :=
  map (fun x => ln (exp x / Rsum (map exp r))) r.

(** [nn.LogSoftmax(dim=1)] / [F.log_softmax(x, dim=1)] on a batch of shape
    [(n, c)]: each row is normalised.  Dimension 1 does not exist for a
    tensor of rank below two; ranks above two do not occur in the notebooks
    and are outside this model. *)
Definition log_softmax (x : Tensor) : result Tensor :=
  match shape x with
  | [n; c] =>
      Ok (mkTensor [n; c]
            (concat (map log_softmax_row
                         (chunks (Z.to_nat n) (Z.to_nat c) (data x)))))
  | _ => Raise IndexError
  end.

(** [torch.exp]. *)
Definition torch_exp (x : Tensor) : Tensor :=
  mkTensor (shape x) (map exp (data x)).

(** ** [nn.Sequential] (Part 3) *)

(** The modules that the models of Part 3 are made of. *)
Inductive nn_Module : Type :=
| Linear_ (l : Linear)
| ReLU
| LogSoftmax1.

Definition module_forward (m : nn_Module) (x : Tensor) : result Tensor :=
  match m with
  | Linear_ l => linear_forward l x
  | ReLU => Ok (relu x)
  | LogSoftmax1 => log_softmax x
  end.

Fixpoint sequential_forward (ms : list nn_Module) (x : Tensor) : result Tensor :=
  match ms with
  | [] => Ok x
  | m :: ms' => y <- module_forward m x ;; sequential_forward ms' y
  end.

(** The parameters of the three affine layers of the Part 3 models. *)
Record Params : Type := mkParams { fc1 : Linear; fc2 : Linear; fc3 : Linear }.

Definition has_features (l : Linear) (i o : Z) : bool :=
  (in_features l =? i)%Z && (out_features l =? o)%Z && linear_okb l.

(** [nn.Linear(784, 128)], [nn.Linear(128, 64)], [nn.Linear(64, 10)]. *)
Definition params_okb (p : Params) : bool :=
  has_features (fc1 p) 784 128 && has_features (fc2 p) 128 64 &&
  has_features (fc3 p) 64 10.

(** First pipeline: the model ends in the plain affine layer. *)
Definition model_logits (p : Params) : list nn_Module :=
  [Linear_ (fc1 p); ReLU; Linear_ (fc2 p); ReLU; Linear_ (fc3 p)].

(** Second pipeline: the same layers followed by [nn.LogSoftmax(dim=1)]. *)
Definition model_logps (p : Params) : list nn_Module :=
  [Linear_ (fc1 p); ReLU; Linear_ (fc2 p); ReLU; Linear_ (fc3 p); LogSoftmax1].

(** ** Losses *)

(** The default [ignore_index] of both criteria. *)
Definition ignore_index : Z := (-100)%Z.

(** The per-example terms of a criterion with the default mean reduction:
    [term r y] is the loss of the example with scores [r] and label [y].
    Examples labelled [ignore_index] are skipped; another label outside
    [0 .. c-1] is an [IndexError]. *)
Fixpoint loss_terms (term : list R -> nat -> R) (c : Z)
         (rs : list (list R)) (target : list Z) : result (list R) :=
  match rs, target with
  | [], [] => Ok []
  | r :: rs', y :: target' =>
      if (y =? ignore_index)%Z then loss_terms term c rs' target'
      else if (0 <=? y)%Z && (y <? c)%Z then
        rest <- loss_terms term c rs' target' ;;
        Ok (term r (Z.to_nat y) :: rest)
      else Raise IndexError
  | _, _ => Raise ValueError
  end.

(** The mean of the terms.  Without any term it is [0/0], which the engine
    returns as [nan] and to which exact arithmetic gives no particular
    meaning; both criteria share it, and what is stated below about the
    value of a loss is stated for targets with a label that counts. *)
Definition mean (l : list R) : R := (Rsum l / INR (length l))%R.

Definition criterion (term : list R -> nat -> R)
           (input : Tensor) (target : list Z) : result R :=
  match shape input with
  | [n; c] =>
      if (n =? len target)%Z then
        terms <- loss_terms term c (rows input) target ;;
        Ok (mean terms)
      else Raise ValueError
  | _ => Raise ValueError
  end.

(** [nn.NLLLoss()]: the input holds log-probabilities, the term of an example
    is [- input[y]]. *)
Definition NLLLoss : Tensor -> list Z -> result R :=
  criterion (fun r y => (- nth y r 0)%R).

(** [nn.CrossEntropyLoss()]: the input holds raw scores, the term of an
    example is [- log (exp x[y] / sum_j (exp x[j]))]. *)
Definition CrossEntropyLoss : Tensor -> list Z -> result R :=
  criterion (fun r y => (- ln (exp (nth y r 0) / Rsum (map exp r)))%R).

(** ** State dicts *)

(** An ordered dict from parameter names to tensors. *)
Definition StateDict : Type := list (string * Tensor).

Fixpoint lookup (key : string) (sd : StateDict) : option Tensor :=
  match sd with
  | [] => None
  | (k, t) :: sd' => if String.eqb key k then Some t else lookup key sd'
  end.

Definition mem (key : string) (keys : list string) : bool :=
  existsb (String.eqb key) keys.

(** The decimal numeral of a list index, as it appears in a parameter name. *)
Definition dec (k : nat) : string := NilEmpty.string_of_uint (Nat.to_uint k).

Definition weight_key (prefix : string) : string := (prefix ++ ".weight")%string.
Definition bias_key (prefix : string) : string := (prefix ++ ".bias")%string.
Definition hidden_prefix (k : nat) : string := ("hidden_layers." ++ dec k)%string.

(** Whether a string is free of the separator of parameter names. *)
Fixpoint no_dot (s : string) : bool :=
  match s with
  | EmptyString => true
  | String c s' => negb (Ascii.eqb c ".") && no_dot s'
  end.

Definition linear_state (prefix : string) (l : Linear) : StateDict :=
  [(weight_key prefix, weight l); (bias_key prefix, bias l)].

Fixpoint hidden_state (k : nat) (ls : list Linear) : StateDict :=
  match ls with
  | [] => []
  | l :: ls' => linear_state (hidden_prefix k) l ++ hidden_state (S k) ls'
  end.

(** What [load_state_dict] does with one parameter of the model: the entry of
    the checkpoint is copied when its shape is the parameter's shape. *)
Definition copy_param (sd : StateDict) (key : string) (own : Tensor) : Tensor :=
  match lookup key sd with
  | Some t => if shape_eqb (shape t) (shape own)
              then mkTensor (shape own) (data t) else own
  | None => own
  end.

Definition load_linear (sd : StateDict) (prefix : string) (l : Linear) : Linear :=
  mkLinear (in_features l) (out_features l)
           (copy_param sd (weight_key prefix) (weight l))
           (copy_param sd (bias_key prefix) (bias l)).

Fixpoint load_hidden (sd : StateDict) (k : nat) (ls : list Linear) : list Linear :=
  match ls with
  | [] => []
  | l :: ls' => load_linear sd (hidden_prefix k) l :: load_hidden sd (S k) ls'
  end.

(** "size mismatch for KEY: copying a param with shape S from checkpoint, the
    shape in current model is S'", one entry per parameter whose shapes
    differ, in the order of the model's parameters. *)
Fixpoint size_mismatches (sd : StateDict) (own : StateDict) : list LoadMsg :=
  match own with
  | [] => []
  | (key, p) :: own' =>
      match lookup key sd with
      | Some t =>
          if shape_eqb (shape t) (shape p) then size_mismatches sd own'
          else SizeMismatch key (shape t) (shape p) :: size_mismatches sd own'
      | None => size_mismatches sd own'
      end
  end.

Definition missing_keys (sd own : StateDict) : list string :=
  filter (fun key => match lookup key sd with Some _ => false | None => true end)
         (map fst own).

Definition unexpected_keys (sd own : StateDict) : list string :=
  filter (fun key => negb (mem key (map fst own))) (map fst sd).

Definition nonempty {A : Type} (l : list A) (x : list A -> LoadMsg) : list LoadMsg :=
  match l with
  | [] => []
  | _ => [x l]
  end.

(** The error messages of a strict load: missing keys first, then unexpected
    keys, then the size mismatches. *)
Definition error_msgs (sd own : StateDict) : list LoadMsg :=
  nonempty (missing_keys sd own) MissingKeys ++
  nonempty (unexpected_keys sd own) UnexpectedKeys ++
  size_mismatches sd own.

(** ** The classifier of [fc_model] (Part 6) *)

(** The fields are those of the printed model:
    [(hidden_layers): ModuleList], [(output): Linear], [(dropout): Dropout(p)];
    [training] is the mode flag. *)
Record Network : Type := mkNetwork {
  hidden_layers : list Linear;
  output : Linear;
  dropout : R;
  training : bool
}.

(** Two layers with the same sizes and the same parameter shapes. *)
Definition same_layout (f l : Linear) : Prop :=
  in_features f = in_features l /\ out_features f = out_features l /\
  shape (weight f) = shape (weight l) /\ shape (bias f) = shape (bias l).

Definition layers (net : Network) : list Linear :=
  hidden_layers net ++ [output net].

Definition net_input_size (net : Network) : Z :=
  in_features (hd (output net) (hidden_layers net)).

Definition net_output_size (net : Network) : Z := out_features (output net).

Definition hidden_sizes (net : Network) : list Z :=
  map out_features (hidden_layers net).

(** Chaining invariant of the layers: each layer reads what its predecessor
    writes, and each parameter has the shape of its layer. *)
Fixpoint chain_okb (i : Z) (ls : list Linear) : bool :=
  match ls with
  | [] => true
  | l :: ls' => (in_features l =? i)%Z && linear_okb l && chain_okb (out_features l) ls'
  end.

Definition network_okb (net : Network) : bool :=
  chain_okb (net_input_size net) (layers net).

(** [model.state_dict()]; its keys are those printed in Part 6:
    [hidden_layers.0.weight], [hidden_layers.0.bias], ..., [output.weight],
    [output.bias]. *)
Definition state_dict (net : Network) : StateDict :=
  hidden_state 0 (hidden_layers net) ++ linear_state "output" (output net).

(** [model.load_state_dict(sd)]: raises the [RuntimeError] listing every
    problem when there is one, and otherwise leaves every entry of [sd] copied
    into the model. *)
Definition load_state_dict (net : Network) (sd : StateDict) : result Network :=
  match error_msgs sd (state_dict net) with
  | [] => Ok (mkNetwork (load_hidden sd 0 (hidden_layers net))
                        (load_linear sd "output" (output net))
                        (dropout net) (training net))
  | msgs => Raise (RuntimeError (LoadStateDict msgs))
  end.

(** [model.eval()] and [model.train()]. *)
Definition eval_mode (net : Network) : Network :=
  mkNetwork (hidden_layers net) (output net) (dropout net) false.

Definition train_mode (net : Network) : Network :=
  mkNetwork (hidden_layers net) (output net) (dropout net) true.

Fixpoint consecutive_pairs (l : list Z) : list (Z * Z) :=
  match l with
  | a :: ((b :: _) as l') => (a, b) :: consecutive_pairs l'
  | _ => []
  end.

(** ** Checkpoints (Part 6) *)

Record Checkpoint : Type := mkCheckpoint {
  ckpt_input_size : Z;
  ckpt_output_size : Z;
  ckpt_hidden_layers : list Z;
  ckpt_state_dict : StateDict
}.

(** The checkpoint dict of Part 6:
    [{'input_size': 784, 'output_size': 10,
      'hidden_layers': [each.out_features for each in model.hidden_layers],
      'state_dict': model.state_dict()}]. *)
Definition checkpoint (model : Network) : Checkpoint :=
  mkCheckpoint 784 10 (map out_features (hidden_layers model)) (state_dict model).

(** The files written by [torch.save] and read by [torch.load]. *)
Definition Files : Type := string -> option Checkpoint.

Definition torch_save (c : Checkpoint) (filepath : string) (fs : Files) : Files :=
  fun f => if String.eqb f filepath then Some c else fs f.

Definition torch_load (fs : Files) (filepath : string) : result Checkpoint :=
  match fs filepath with
  | Some c => Ok c
  | None => Raise FileNotFoundError
  end.

(** [save_checkpoint]: the cell that builds the checkpoint dict and saves it. *)
Definition save_checkpoint (model : Network) (filepath : string) (fs : Files) : Files :=
  torch_save (checkpoint model) filepath fs.

(** The default of the [drop_p] argument of the constructor, as Part 6
    prints it for a model built without this argument: [Dropout(p=0.5)]. *)
Definition default_drop_p : R := 0.5%R.

(** ** Batches and data loaders *)

(** A batch: the images and one integer label per image. *)
Definition Batch : Type := (Tensor * list Z)%type.

(** [images.view(images.shape[0], -1)]: a tensor without dimensions has no
    [shape[0]], and [-1] cannot be inferred when [shape[0]] is 0. *)
Definition view_flat (images : Tensor) : result Tensor :=
  match shape images with
  | [] => Raise IndexError
  | n :: rest =>
      if (n =? 0)%Z
      then Raise (RuntimeError (Reshape (shape images)))
      else Ok (mkTensor [n; numel rest] (data images))
  end.

(** A [DataLoader] with [shuffle=True]: pass [e] over it yields the batches
    [pass e]; [loader_len] is [len(trainloader)]. *)
Record DataLoader : Type := mkDataLoader {
  loader_len : Z;
  pass : nat -> list Batch
}.

Definition loader_ok (dl : DataLoader) : Prop :=
  forall e, len (pass dl e) = loader_len dl.

Definition label_okb (y : Z) : bool :=
  (y =? ignore_index)%Z || ((0 <=? y)%Z && (y <? 10)%Z).

(** A batch of [n >= 1] images of 784 pixels with [n] labels among the ten
    classes. *)
Definition batch_okb (b : Batch) : bool :=
  match shape (fst b) with
  | [] => false
  | n :: rest =>
      (0 <? n)%Z && (numel rest =? 784)%Z && (len (snd b) =? n)%Z &&
      forallb label_okb (snd b)
  end.

(** Python's [/] on a float and an [int]. *)
Definition py_div (a : R) (n : Z) : result R :=
  if (n =? 0)%Z then Raise ZeroDivisionError else Ok (a / IZR n)%R.

Section Engine.

(** The initial entries of the parameters of a fresh [nn.Linear(i, o)]. *)
Variable init_weight : Z -> Z -> nat -> R.
Variable init_bias : Z -> Z -> nat -> R.

(** The draws of [nn.Dropout]: [mask k j] tells whether entry [j] of the
    activations of hidden layer [k] is kept. *)
Variable mask : nat -> nat -> bool.

(** [loss.backward()] followed by [optimizer.step()]: the parameters after
    one step of the optimizer on the batch. *)
Variable backward_and_step : Params -> Tensor -> list Z -> Params.

(** [nn.Linear(i, o)]. *)
Definition nn_Linear (i o : Z) : Linear :=
  mkLinear i o
    (mkTensor [o; i] (map (init_weight i o) (seq 0 (Z.to_nat (o * i)))))
    (mkTensor [o] (map (init_bias i o) (seq 0 (Z.to_nat o)))).

Definition sizes_okb (input_size output_size : Z) (hidden : list Z) : bool :=
  (0 <? input_size)%Z && (0 <? output_size)%Z && forallb (Z.ltb 0) hidden.

(** Modelled from the spec: the constructor [fc_model.Network(input_size,
    output_size, hidden_layers, drop_p=0.5)], whose file is not among the
    sources.  It allocates one affine layer per consecutive pair of
    [[input_size] + hidden_sizes + [output_size]], the last of them being the
    output layer, fails with a [ConfigurationError] unless every size is a
    positive integer, and starts in training mode. *)
Definition Network_init (input_size output_size : Z) (hidden : list Z)
           (drop_p : R) : result Network :=
  if sizes_okb input_size output_size hidden then
    Ok (mkNetwork
          (map (fun io => nn_Linear (fst io) (snd io))
               (consecutive_pairs (input_size :: hidden)))
          (nn_Linear (last hidden input_size) output_size)
          drop_p true)
  else Raise ConfigurationError.

(** [nn.Dropout(p)]: in training mode an entry is zeroed or rescaled by
    [1/(1-p)]; in evaluation mode the module is the identity. *)
Definition dropout_forward (train : bool) (p : R) (keep : nat -> bool)
           (x : Tensor) : Tensor :=
  if train then
    mkTensor (shape x)
      (map (fun jx => if keep (fst jx) then (snd jx / (1 - p))%R else 0%R)
           (combine (seq 0 (length (data x))) (data x)))
  else x.

Fixpoint forward_hidden (train : bool) (p : R) (k : nat) (ls : list Linear)
         (x : Tensor) : result Tensor :=
  match ls with
  | [] => Ok x
  | l :: ls' =>
      y <- linear_forward l x ;;
      forward_hidden train p (S k) ls' (dropout_forward train p (mask k) (relu y))
  end.

(** Modelled from the spec: the forward pass of [fc_model.Network]: affine
    transform, rectifier and dropout for each hidden layer, then the output
    layer and the log-softmax over the classes. *)
Definition forward (net : Network) (x : Tensor) : result Tensor :=
  h <- forward_hidden (training net) (dropout net) 0 (hidden_layers net) x ;;
  y <- linear_forward (output net) h ;;
  log_softmax y.

Definition forward_eval (net : Network) (x : Tensor) : result Tensor :=
  forward (eval_mode net) x.

(** [load_checkpoint(filepath)] of Part 6. *)
Definition load_checkpoint (fs : Files) (filepath : string) : result Network :=
  checkpoint <- torch_load fs filepath ;;
  model <- Network_init (ckpt_input_size checkpoint)
                        (ckpt_output_size checkpoint)
                        (ckpt_hidden_layers checkpoint)
                        default_drop_p ;;
  model <- load_state_dict model (ckpt_state_dict checkpoint) ;;
  Ok model.

(** *** The training loop of Part 3 *)

(** The body of the inner loop: the new parameters and [loss.item()]. *)
Definition train_batch (p : Params) (b : Batch) : result (Params * R) :=
  images <- view_flat (fst b) ;;
  output <- sequential_forward (model_logps p) images ;;
  loss <- NLLLoss output (snd b) ;;
  Ok (backward_and_step p images (snd b), loss).

(** [for images, labels in trainloader: ... running_loss += loss.item()]. *)
Fixpoint train_pass (p : Params) (running_loss : R) (bs : list Batch)
  : result (Params * R) :=
  match bs with
  | [] => Ok (p, running_loss)
  | b :: bs' =>
      r <- train_batch p b ;;
      train_pass (fst r) (running_loss + snd r)%R bs'
  end.

(** One epoch: [running_loss = 0], the pass over the loader, and in the
    [else] branch of the [for] the value [running_loss/len(trainloader)]
    that is printed. *)
Definition train_epoch (p : Params) (bs : list Batch) (n : Z)
  : result (Params * R) :=
  r <- train_pass p 0%R bs ;;
  avg <- py_div (snd r) n ;;
  Ok (fst r, avg).

(** [for e in range(epochs)]: the values printed so far, and how the loop
    ends.  An exception ends the loop and keeps what was printed. *)
Fixpoint train_loop (trainloader : DataLoader) (epochs e : nat) (p : Params)
         (printed : list R) : list R * result Params :=
  match epochs with
  | O => (printed, Ok p)
  | S epochs' =>
      match train_epoch p (pass trainloader e) (loader_len trainloader) with
      | Ok r => train_loop trainloader epochs' (S e) (fst r) (printed ++ [snd r])
      | Raise ex => (printed, Raise ex)
      end
  end.

Definition train (trainloader : DataLoader) (epochs : nat) (p : Params)
  : list R * result Params :=
  train_loop trainloader epochs 0 p [].

(** *** The losses of each epoch, for stating what is printed *)

(** The list of the values of [loss.item()] during one pass. *)
Fixpoint pass_losses (p : Params) (bs : list Batch) : result (Params * list R) :=
  match bs with
  | [] => Ok (p, [])
  | b :: bs' =>
      r <- train_batch p b ;;
      r' <- pass_losses (fst r) bs' ;;
      Ok (fst r', snd r :: snd r')
  end.

(** The lists of losses of the epochs that reach their report. *)
Fixpoint loop_losses (trainloader : DataLoader) (epochs e : nat) (p : Params)
  : list (list R) * result Params :=
  match epochs with
  | O => ([], Ok p)
  | S epochs' =>
      match pass_losses p (pass trainloader e) with
      | Ok r =>
          if (loader_len trainloader =? 0)%Z then ([], Raise ZeroDivisionError)
          else let rest := loop_losses trainloader epochs' (S e) (fst r) in
               (snd r :: fst rest, snd rest)
      | Raise ex => ([], Raise ex)
      end
  end.

(** The average that the claim describes: the sum of the losses of an epoch
    divided by the number of batches. *)
Definition average_loss (trainloader : DataLoader) (losses : list R) : R :=
  (Rsum losses / IZR (loader_len trainloader))%R.

End Engine.

(** ** What Part 6 prints for [Network(784, 10, [512, 256, 128])] *)




(** ** Further cells of the notebooks *)




(** [optim.SGD(model.parameters(), lr)] with its defaults: [optimizer.step()]
    replaces each entry [w] of a parameter by [w - lr * g], where [g] is the
    entry of the gradient that [loss.backward()] left for it. *)
Definition sgd_tensor (lr : R) (w g : Tensor) : Tensor :=
  mkTensor (shape w)
           (map (fun wg => (fst wg - lr * snd wg)%R) (combine (data w) (data g))).

Definition sgd_linear (lr : R) (l g : Linear) : Linear :=
  mkLinear (in_features l) (out_features l)
           (sgd_tensor lr (weight l) (weight g))
           (sgd_tensor lr (bias l) (bias g)).

Definition sgd_step (lr : R) (p g : Params) : Params :=
  mkParams (sgd_linear lr (fc1 p) (fc1 g))
           (sgd_linear lr (fc2 p) (fc2 g))
           (sgd_linear lr (fc3 p) (fc3 g)).

(** A gradient has the shape and the number of entries of its parameter. *)
Definition like_okb (w g : Tensor) : bool :=
  shape_eqb (shape g) (shape w) && (len (data g) =? len (data w))%Z.

Definition grads_okb (p g : Params) : bool :=
  like_okb (weight (fc1 p)) (weight (fc1 g)) && like_okb (bias (fc1 p)) (bias (fc1 g)) &&
  like_okb (weight (fc2 p)) (weight (fc2 g)) && like_okb (bias (fc2 p)) (bias (fc2 g)) &&
  like_okb (weight (fc3 p)) (weight (fc3 g)) && like_okb (bias (fc3 p)) (bias (fc3 g)).

(** [loss.backward()] then [optimizer.step()] for SGD: [gradient p x y] is
    what the engine computes for the batch. *)
Definition sgd_backward_and_step (lr : R)
           (gradient : Params -> Tensor -> list Z -> Params)
           (p : Params) (images : Tensor) (labels : list Z) : Params :=
  sgd_step lr p (gradient p images labels).

(** The autograd cells of Part 3: [y = x**2], [z = y.mean()] and [x/2]. *)
Definition torch_square (x : Tensor) : Tensor :=
  mkTensor (shape x) (map (fun v => (v * v)%R) (data x)).

Definition torch_mean (x : Tensor) : R := mean (data x).

Definition torch_div (x : Tensor) (c : R) : Tensor :=
  mkTensor (shape x) (map (fun v => (v / c)%R) (data x)).

(** The tensor [x] with entry [i] replaced by [v]. *)
Definition set_entry (x : Tensor) (i : nat) (v : R) : Tensor :=
  mkTensor (shape x) (firstn i (data x) ++ v :: skipn (S i) (data x)).

(** What [z.backward()] stores in entry [i] of [x.grad] for [z = f x]: the
    partial derivative of [f] at [x] along entry [i]. *)
Definition is_grad_entry (f : Tensor -> R) (x : Tensor) (i : nat) (g : R) : Prop :=
  derivable_pt_lim (fun v => f (set_entry x i v)) (nth i (data x) 0%R) g.

(** [transforms.ToTensor()] on the bytes of a grey image of [h] by [w]
    pixels: one channel, each byte divided by 255. *)
Definition ToTensor (h w : Z) (pixels : list Z) : Tensor :=
  mkTensor [1; h; w]%Z (map (fun v => (IZR v / 255)%R) pixels).

(** [transforms.Normalize((mean,), (std,))] on a one-channel image. *)
Definition Normalize (mean std : R) (x : Tensor) : Tensor :=
  mkTensor (shape x) (map (fun v => ((v - mean) / std)%R) (data x)).

(** [transforms.Compose([transforms.ToTensor(),
                         transforms.Normalize((0.5,), (0.5,))])]. *)
Definition transform (h w : Z) (pixels : list Z) : Tensor :=
  Normalize 0.5 0.5 (ToTensor h w pixels).

(** The architecture of a classifier: input size, hidden sizes, output
    size. *)
Definition architecture (net : Network) : Z * list Z * Z :=
  (net_input_size net, hidden_sizes net, net_output_size net).

(** Whether some label is not the ignored index, so that the mean of a
    criterion is over at least one term. *)
Definition some_counted (target : list Z) : bool :=
  existsb (fun y => negb (y =? ignore_index)%Z) target.


(** ** The run of [fc_model.train] recorded in Part 6 *)





(** ** Concrete inputs *)

(** An affine layer with every parameter at zero. *)
Definition zero_linear (i o : Z) : Linear :=
  mkLinear i o (mkTensor [o; i] (repeat 0%R (Z.to_nat (o * i))))
               (mkTensor [o] (repeat 0%R (Z.to_nat o))).

Definition zero_params : Params :=
  mkParams (zero_linear 784 128) (zero_linear 128 64) (zero_linear 64 10).

(** Two blank images of 28 by 28 pixels, and their labels. *)
Definition blank_images : Tensor :=
  mkTensor [2; 1; 28; 28]%Z (repeat 0%R 1568).

Definition blank_batch : Batch := (blank_images, [3; 7]%Z).


(** Scores of two examples over three classes. *)
Definition small_logits : Tensor :=
  mkTensor [2; 3]%Z [1; 2; 3; 0; -1; 5]%R.

(** A loader of two batches, and a loader without batches. *)
Definition blank_loader : DataLoader :=
  mkDataLoader 2 (fun _ => [blank_batch; blank_batch]).

Definition empty_loader : DataLoader := mkDataLoader 0 (fun _ => []).

(** An optimizer that leaves the parameters as they are. *)
Definition no_update (p : Params) (images : Tensor) (labels : list Z) : Params := p.

(** Every initial entry at zero. *)
Definition zero_init (i o : Z) (j : nat) : R := 0%R.

(** No dropout draw ever zeroes an entry. *)
Definition keep_all (k j : nat) : bool := true.

Definition no_files : Files := fun _ => None.

(** The classifier that [Network(2, 10, [3])] builds from [zero_init]. *)
Definition small_net : Network :=
  mkNetwork [zero_linear 2 3] (zero_linear 3 10) default_drop_p true.

(** A classifier for 784 inputs and 10 classes, with dropout rate 0.2. *)
Definition demo_net : Network :=
  mkNetwork [zero_linear 784 2] (zero_linear 2 10) 0.2%R true.

(** A record edited by hand: it declares one hidden layer of 3 units and
    stores the parameters of a hidden layer of 4 units. *)
Definition edited_checkpoint : Checkpoint :=
  mkCheckpoint 2 10 [3%Z]
    (state_dict (mkNetwork [zero_linear 2 4] (zero_linear 4 10) default_drop_p true)).

Definition edited_files : Files := torch_save edited_checkpoint "checkpoint.pth" no_files.

(** An affine layer with every parameter at one, and the classifier of the
    sizes of [small_net] made of such layers. *)
Definition ones_linear (i o : Z) : Linear :=
  mkLinear i o (mkTensor [o; i] (repeat 1%R (Z.to_nat (o * i))))
               (mkTensor [o] (repeat 1%R (Z.to_nat o))).

Definition ones_net : Network :=
  mkNetwork [ones_linear 2 3] (ones_linear 3 10) default_drop_p true.

(** A gradient source that returns the parameters themselves. *)
Definition weights_as_gradient (p : Params) (images : Tensor) (labels : list Z)
  : Params := p.

(** A tensor as [torch.randn(2,2)] returns one. *)
Definition small_square : Tensor := mkTensor [2; 2]%Z [1; -2; 3; 4]%R.

(** ** Rows of tensors *)

Lemma shape_eqb_eq (s1 s2 : list Z) : shape_eqb s1 s2 = true <-> s1 = s2.
Proof.
  revert s2; induction s1 as [|a s1 IH]; intros [|b s2]; simpl;
    try (split; [discriminate | discriminate]); [tauto|].
  rewrite andb_true_iff, Z.eqb_eq, IH.
  split; [intros [-> ->]; reflexivity | intros [= -> ->]; auto].
Qed.

Lemma shape_eqb_refl (s : list Z) : shape_eqb s s = true.
Proof. apply shape_eqb_eq; reflexivity. Qed.

Lemma chunks_length (n c : nat) (d : list R) : length (chunks n c d) = n.
Proof. revert d; induction n; intros d; simpl; [reflexivity | now rewrite IHn]. Qed.

Lemma chunks_concat (c : nat) (rs : list (list R)) :
  Forall (fun r => length r = c) rs ->
  chunks (length rs) c (concat rs) = rs.
Proof.
  induction 1 as [|r rs Hr _ IH]; simpl; [reflexivity|].
  rewrite firstn_app, skipn_app, Hr, Nat.sub_diag, firstn_all2, skipn_all2 by lia.
  simpl; rewrite app_nil_r, IH; reflexivity.
Qed.

Lemma chunks_map (f : R -> R) (n c : nat) (d : list R) :
  chunks n c (map f d) = map (map f) (chunks n c d).
Proof.
  revert d; induction n; intros d; simpl; [reflexivity|].
  rewrite firstn_map, skipn_map, IHn; reflexivity.
Qed.

Lemma chunks_full (n c : nat) (d : list R) :
  length d = n * c -> Forall (fun r => length r = c) (chunks n c d).
Proof.
  revert d; induction n; intros d Hd; simpl; constructor.
  - rewrite length_firstn; simpl in Hd; lia.
  - apply IHn; rewrite length_skipn; simpl in Hd; lia.
Qed.

Lemma tensor_ok_2d (t : Tensor) (n c : Z) :
  tensor_okb t = true -> shape t = [n; c] ->
  (0 <= n)%Z /\ (0 <= c)%Z /\ length (data t) = Z.to_nat n * Z.to_nat c.
Proof.
  unfold tensor_okb, len; intros H Hs; rewrite Hs in H; simpl in H.
  rewrite !andb_true_iff, !Z.leb_le, Z.eqb_eq in H.
  destruct H as [(Hn & Hc & _) Hl]; repeat split; try assumption.
  apply Nat2Z.inj; rewrite Hl; nia.
Qed.

Lemma tensor_ok_1d (t : Tensor) (n : Z) :
  tensor_okb t = true -> shape t = [n] -> length (data t) = Z.to_nat n.
Proof.
  unfold tensor_okb, len; intros H Hs; rewrite Hs in H; simpl in H.
  rewrite !andb_true_iff, !Z.leb_le, Z.eqb_eq in H.
  destruct H as [(Hn & _) Hl]; lia.
Qed.

(** ** Log-softmax over one row *)

Lemma Rsum_exp_pos (r : list R) : r <> [] -> (0 < Rsum (map exp r))%R.
Proof.
  destruct r as [|x r]; [congruence | intros _; simpl].
  assert (H : (0 <= Rsum (map exp r))%R).
  { induction r as [|y r IH]; simpl; [lra|]. pose proof (exp_pos y); lra. }
  pose proof (exp_pos x); lra.
Qed.

Lemma Rsum_scale (f : R -> R) (s : R) (r : list R) :
  Rsum (map (fun x => (f x / s)%R) r) = (Rsum (map f r) / s)%R.
Proof.
  induction r as [|x r IH]; simpl; [unfold Rdiv; ring|].
  rewrite IH; unfold Rdiv; ring.
Qed.

Lemma exp_log_softmax_row (r : list R) :
  r <> [] ->
  map exp (log_softmax_row r) = map (fun x => (exp x / Rsum (map exp r))%R) r.
Proof.
  intros Hr; unfold log_softmax_row; rewrite map_map.
  apply map_ext; intros x; apply exp_ln.
  apply Rdiv_lt_0_compat; [apply exp_pos | apply Rsum_exp_pos, Hr].
Qed.

Lemma log_softmax_row_normalised (r : list R) :
  r <> [] -> Rsum (map exp (log_softmax_row r)) = 1%R.
Proof.
  intros Hr; rewrite exp_log_softmax_row, Rsum_scale by assumption.
  pose proof (Rsum_exp_pos r Hr); field; lra.
Qed.

Lemma log_softmax_row_length (r : list R) :
  length (log_softmax_row r) = length r.
Proof. unfold log_softmax_row; apply length_map. Qed.

Lemma log_softmax_row_nth (r : list R) (y : nat) :
  y < length r ->
  nth y (log_softmax_row r) 0%R = ln (exp (nth y r 0%R) / Rsum (map exp r)).
Proof.
  intros Hy; unfold log_softmax_row.
  rewrite (nth_indep _ 0%R (ln (exp 0 / Rsum (map exp r))))
    by (rewrite length_map; exact Hy).
  apply (map_nth (fun x => ln (exp x / Rsum (map exp r)))).
Qed.

(** ** Forward pass of the Part 3 models *)

Lemma affine_row_length (l : Linear) (x : list R) :
  linear_okb l = true -> length (affine_row l x) = Z.to_nat (out_features l).
Proof.
  unfold linear_okb, affine_row; rewrite !andb_true_iff.
  intros (((((_ & _) & _) & Hb) & _) & Hbok).
  apply shape_eqb_eq in Hb.
  rewrite length_map, length_combine, chunks_length, (tensor_ok_1d _ _ Hbok Hb); lia.
Qed.

Lemma linear_forward_rows (l : Linear) (x : Tensor) (n : Z) :
  linear_okb l = true -> shape x = [n; in_features l] ->
  exists rs, linear_forward l x = Ok (mkTensor [n; out_features l] (concat rs)) /\
             length rs = Z.to_nat n /\
             Forall (fun r => length r = Z.to_nat (out_features l)) rs.
Proof.
  intros Hl Hx; unfold linear_forward; rewrite Hx, Z.eqb_refl.
  eexists; split; [reflexivity|]; split.
  - rewrite length_map, chunks_length; reflexivity.
  - apply Forall_forall; intros r Hr; apply in_map_iff in Hr.
    destruct Hr as (y & <- & _); apply affine_row_length, Hl.
Qed.

Lemma has_features_spec (l : Linear) (i o : Z) :
  has_features l i o = true ->
  in_features l = i /\ out_features l = o /\ linear_okb l = true.
Proof.
  unfold has_features; rewrite !andb_true_iff, !Z.eqb_eq; tauto.
Qed.

Lemma sequential_forward_app (ms1 ms2 : list nn_Module) (x : Tensor) :
  sequential_forward (ms1 ++ ms2) x =
  (y <- sequential_forward ms1 x ;; sequential_forward ms2 y).
Proof.
  revert x; induction ms1 as [|m ms1 IH]; intros x; simpl; [reflexivity|].
  destruct (module_forward m x); simpl; [apply IH | reflexivity].
Qed.

Lemma model_logps_logits (p : Params) (x : Tensor) :
  sequential_forward (model_logps p) x =
  (y <- sequential_forward (model_logits p) x ;; log_softmax y).
Proof.
  change (model_logps p) with (model_logits p ++ [LogSoftmax1]).
  rewrite sequential_forward_app.
  destruct (sequential_forward (model_logits p) x) as [y|e]; simpl; [|reflexivity].
  destruct (log_softmax y); reflexivity.
Qed.

Lemma model_logits_rows (p : Params) (x : Tensor) (n : Z) :
  params_okb p = true -> shape x = [n; 784%Z] ->
  exists rs, sequential_forward (model_logits p) x = Ok (mkTensor [n; 10%Z] (concat rs)) /\
             length rs = Z.to_nat n /\
             Forall (fun r => length r = Z.to_nat 10) rs.
Proof.
  unfold params_okb; rewrite !andb_true_iff; intros ((H1 & H2) & H3) Hx.
  apply has_features_spec in H1, H2, H3.
  destruct H1 as (I1 & O1 & L1), H2 as (I2 & O2 & L2), H3 as (I3 & O3 & L3).
  rewrite <- I1 in Hx.
  destruct (linear_forward_rows _ _ _ L1 Hx) as (r1 & E1 & _).
  assert (Hx2 : shape (relu (mkTensor [n; out_features (fc1 p)] (concat r1))) =
                [n; in_features (fc2 p)]) by (simpl; congruence).
  destruct (linear_forward_rows _ _ _ L2 Hx2) as (r2 & E2 & _).
  assert (Hx3 : shape (relu (mkTensor [n; out_features (fc2 p)] (concat r2))) =
                [n; in_features (fc3 p)]) by (simpl; congruence).
  destruct (linear_forward_rows _ _ _ L3 Hx3) as (r3 & E3 & N3 & F3).
  exists r3; rewrite <- O3; repeat split; try assumption.
  unfold model_logits; simpl; rewrite E1; simpl; rewrite E2; simpl; rewrite E3.
  reflexivity.
Qed.

Lemma rows_concat (n c : Z) (rs : list (list R)) :
  length rs = Z.to_nat n -> Forall (fun r => length r = Z.to_nat c) rs ->
  rows (mkTensor [n; c] (concat rs)) = rs.
Proof.
  intros Hn Hc; unfold rows; simpl; rewrite <- Hn; apply chunks_concat, Hc.
Qed.

Lemma log_softmax_rows (n c : Z) (rs : list (list R)) :
  length rs = Z.to_nat n -> Forall (fun r => length r = Z.to_nat c) rs ->
  log_softmax (mkTensor [n; c] (concat rs)) =
  Ok (mkTensor [n; c] (concat (map log_softmax_row rs))).
Proof.
  intros Hn Hc; unfold log_softmax; simpl.
  rewrite <- Hn, chunks_concat by exact Hc; reflexivity.
Qed.

Lemma rows_torch_exp (t : Tensor) : rows (torch_exp t) = map (map exp) (rows t).
Proof.
  unfold rows, torch_exp; simpl.
  destruct (shape t) as [|n [|c [|]]]; try reflexivity. apply chunks_map.
Qed.

Lemma Forall_log_softmax_length (c : nat) (rs : list (list R)) :
  Forall (fun r => length r = c) rs ->
  Forall (fun r => length r = c) (map log_softmax_row rs).
Proof.
  intros H; apply Forall_map; revert H; apply Forall_impl.
  intros r; rewrite log_softmax_row_length; auto.
Qed.



(** ** The two criteria *)

Lemma concat_chunks (n c : nat) (d : list R) :
  length d = n * c -> concat (chunks n c d) = d.
Proof.
  revert d; induction n; intros d Hd; simpl.
  - destruct d; [reflexivity | discriminate Hd].
  - rewrite IHn by (rewrite length_skipn; simpl in Hd; lia).
    apply firstn_skipn.
Qed.

Lemma loss_terms_log_softmax (c : Z) (rs : list (list R)) (target : list Z) :
  Forall (fun r => length r = Z.to_nat c) rs ->
  loss_terms (fun r y => (- nth y r 0)%R) c (map log_softmax_row rs) target =
  loss_terms (fun r y => (- ln (exp (nth y r 0) / Rsum (map exp r)))%R) c rs target.
Proof.
  intros H; revert target; induction H as [|r rs Hr _ IH]; intros [|y target];
    simpl; try reflexivity.
  destruct (y =? ignore_index)%Z; [apply IH|].
  destruct (0 <=? y)%Z eqn:H0; [|reflexivity].
  destruct (y <? c)%Z eqn:Hc; [|reflexivity]; simpl.
  apply Z.leb_le in H0; apply Z.ltb_lt in Hc.
  rewrite IH, log_softmax_row_nth by lia; reflexivity.
Qed.

Lemma criteria_agree_on_rows (n c : Z) (rs : list (list R)) (target : list Z) :
  length rs = Z.to_nat n -> Forall (fun r => length r = Z.to_nat c) rs ->
  CrossEntropyLoss (mkTensor [n; c] (concat rs)) target =
  NLLLoss (mkTensor [n; c] (concat (map log_softmax_row rs))) target.
Proof.
  intros Hn Hc; unfold CrossEntropyLoss, NLLLoss, criterion; simpl.
  destruct (n =? len target)%Z; [|reflexivity].
  rewrite !rows_concat, loss_terms_log_softmax
    by (rewrite ?length_map; auto using Forall_log_softmax_length).
  reflexivity.
Qed.

(** C9: on every batch of raw scores and every batch of integer labels,
    [nn.CrossEntropyLoss] applied to the scores and [nn.NLLLoss] applied to
    [nn.LogSoftmax(dim=1)] of the scores return the same loss or raise the
    same exception. *)
Theorem cross_entropy_is_nll_of_log_softmax
        (logits : Tensor) (target : list Z) (n c : Z) :
  tensor_okb logits = true -> shape logits = [n; c] ->
  exists logps,
    log_softmax logits = Ok logps /\
    CrossEntropyLoss logits target = NLLLoss logps target.
Proof.
  intros Hok Hs.
  destruct (tensor_ok_2d _ _ _ Hok Hs) as (_ & _ & Hl).
  destruct logits as [s d]; simpl in Hs, Hl; subst s.
  rewrite <- (concat_chunks _ _ d Hl).
  pose proof (chunks_full _ _ d Hl) as Hc.
  pose proof (chunks_length (Z.to_nat n) (Z.to_nat c) d) as Hn.
  eexists; split; [apply log_softmax_rows; assumption|].
  apply criteria_agree_on_rows; assumption.
Qed.

Lemma cross_entropy_is_nll_of_log_softmax_witness :
  tensor_okb small_logits = true /\ shape small_logits = [2; 3]%Z /\
  exists logps,
    log_softmax small_logits = Ok logps /\
    CrossEntropyLoss small_logits [2; 0]%Z = NLLLoss logps [2; 0]%Z.
Proof.
  split; [reflexivity|]; split; [reflexivity|].
  apply (cross_entropy_is_nll_of_log_softmax small_logits [2; 0]%Z 2 3);
    reflexivity.
Defined.

(** The two notebook pipelines give the same loss on the same parameters,
    images and labels. *)
Corollary pipelines_agree (p : Params) (x : Tensor) (n : Z) (target : list Z) :
  params_okb p = true -> shape x = [n; 784%Z] ->
  exists logits logps,
    sequential_forward (model_logits p) x = Ok logits /\
    sequential_forward (model_logps p) x = Ok logps /\
    CrossEntropyLoss logits target = NLLLoss logps target.
Proof.
  intros Hp Hx.
  destruct (model_logits_rows _ _ _ Hp Hx) as (rs & E & Hn & Hc).
  rewrite model_logps_logits, E; simpl.
  rewrite (log_softmax_rows _ _ _ Hn Hc).
  do 2 eexists; repeat split; apply criteria_agree_on_rows; assumption.
Qed.

(** ** The training loop of Part 3 *)

Lemma train_pass_losses bstep (bs : list Batch) (p : Params) (acc : R) :
  train_pass bstep p acc bs =
  (r <- pass_losses bstep p bs ;; Ok (fst r, (acc + Rsum (snd r))%R)).
Proof.
  revert p acc; induction bs as [|b bs IH]; intros p acc; simpl.
  - now rewrite Rplus_0_r.
  - destruct (train_batch bstep p b) as [r|ex]; simpl; [|reflexivity].
    rewrite IH.
    destruct (pass_losses bstep (fst r) bs) as [r'|ex]; simpl; [|reflexivity].
    now rewrite Rplus_assoc.
Qed.

Lemma train_epoch_losses bstep (p : Params) (bs : list Batch) (n : Z) :
  train_epoch bstep p bs n =
  match pass_losses bstep p bs with
  | Ok r => if (n =? 0)%Z then Raise ZeroDivisionError
            else Ok (fst r, (Rsum (snd r) / IZR n)%R)
  | Raise ex => Raise ex
  end.
Proof.
  unfold train_epoch; rewrite train_pass_losses.
  destruct (pass_losses bstep p bs) as [r|ex]; simpl; [|reflexivity].
  unfold py_div; destruct (n =? 0)%Z; simpl; [reflexivity|].
  now rewrite Rplus_0_l.
Qed.

(** Whatever happens, the values printed are the averages of the epochs that
    reached their report, in order. *)
Lemma train_loop_losses bstep (dl : DataLoader) (epochs e : nat) (p : Params)
      (printed : list R) :
  train_loop bstep dl epochs e p printed =
  (printed ++ map (average_loss dl) (fst (loop_losses bstep dl epochs e p)),
   snd (loop_losses bstep dl epochs e p)).
Proof.
  revert e p printed; induction epochs as [|epochs IH]; intros e p printed; simpl.
  - now rewrite app_nil_r.
  - rewrite train_epoch_losses.
    destruct (pass_losses bstep p (pass dl e)) as [r|ex]; simpl;
      [|now rewrite app_nil_r].
    destruct (loader_len dl =? 0)%Z; simpl; [now rewrite app_nil_r|].
    rewrite IH, <- app_assoc; reflexivity.
Qed.



Lemma loss_terms_ok term (rs : list (list R)) (target : list Z) :
  length rs = length target -> forallb label_okb target = true ->
  exists ts, loss_terms term 10 rs target = Ok ts.
Proof.
  revert target; induction rs as [|r rs IH]; intros [|y target]; simpl;
    try discriminate; [eexists; reflexivity|].
  intros [= Hl]; rewrite andb_true_iff; intros [Hy Ht].
  destruct (IH _ Hl Ht) as (ts & E).
  destruct (y =? ignore_index)%Z eqn:Hi; [eauto|].
  unfold label_okb in Hy; rewrite Hi in Hy; simpl in Hy; rewrite Hy, E.
  eexists; reflexivity.
Qed.

Lemma train_batch_ok bstep (p : Params) (b : Batch) :
  (forall q x y, params_okb q = true -> params_okb (bstep q x y) = true) ->
  params_okb p = true -> batch_okb b = true ->
  exists r, train_batch bstep p b = Ok r /\ params_okb (fst r) = true.
Proof.
  intros Hstep Hp; unfold batch_okb, train_batch, view_flat.
  destruct (shape (fst b)) as [|n rest]; [discriminate|].
  rewrite !andb_true_iff, Z.ltb_lt, !Z.eqb_eq; intros (((Hn & Hr) & Hl) & Hy).
  destruct (n =? 0)%Z eqn:E; [apply Z.eqb_eq in E; lia|]; cbn [bind].
  assert (Hx : shape (mkTensor [n; numel rest] (data (fst b))) = [n; 784%Z])
    by (simpl; congruence).
  destruct (model_logits_rows _ _ _ Hp Hx) as (rs & E1 & Hrs & Hc).
  rewrite model_logps_logits, E1; cbn [bind].
  rewrite (log_softmax_rows _ _ _ Hrs Hc); cbn [bind].
  unfold NLLLoss, criterion; cbn [bind shape].
  rewrite Hl, Z.eqb_refl, rows_concat
    by (rewrite ?length_map; auto using Forall_log_softmax_length).
  destruct (loss_terms_ok (fun r y => (- nth y r 0)%R) (map log_softmax_row rs) (snd b))
    as (ts & Ets); [rewrite length_map; unfold len in Hl; lia | exact Hy |].
  rewrite Ets; simpl; eexists; split; [reflexivity|]; simpl; auto.
Qed.

Lemma pass_losses_ok bstep (bs : list Batch) (p : Params) :
  (forall q x y, params_okb q = true -> params_okb (bstep q x y) = true) ->
  params_okb p = true -> forallb batch_okb bs = true ->
  exists r, pass_losses bstep p bs = Ok r /\ params_okb (fst r) = true.
Proof.
  intros Hstep; revert p; induction bs as [|b bs IH]; intros p Hp; simpl.
  - intros _; eexists; split; [reflexivity | exact Hp].
  - rewrite andb_true_iff; intros [Hb Hbs].
    destruct (train_batch_ok bstep p b Hstep Hp Hb) as (r & E & Hr); rewrite E; simpl.
    destruct (IH _ Hr Hbs) as (r' & E' & Hr'); rewrite E'; simpl.
    eexists; split; [reflexivity | exact Hr'].
Qed.

Lemma loop_losses_ok bstep (dl : DataLoader) (epochs e : nat) (p : Params) :
  (forall q x y, params_okb q = true -> params_okb (bstep q x y) = true) ->
  params_okb p = true -> loader_len dl <> 0%Z ->
  (forall k, forallb batch_okb (pass dl k) = true) ->
  exists p' losses, loop_losses bstep dl epochs e p = (losses, Ok p') /\
                    length losses = epochs.
Proof.
  intros Hstep Hp Hn Hb; revert e p Hp; induction epochs as [|epochs IH];
    intros e p Hp; simpl.
  - do 2 eexists; split; reflexivity.
  - destruct (pass_losses_ok bstep (pass dl e) p Hstep Hp (Hb e)) as (r & E & Hr).
    rewrite E; apply Z.eqb_neq in Hn; rewrite Hn.
    destruct (IH (S e) _ Hr) as (p' & losses & E' & Hl); rewrite E'; simpl.
    do 2 eexists; split; [reflexivity | simpl; now rewrite Hl].
Qed.




(** C10: the report divides by [len(trainloader)] without a guard: with a
    loader that has no batches, the epoch started from any parameters raises
    [ZeroDivisionError] at its report, so the loop prints nothing and ends
    with that exception; and an epoch whose report has a value went over at
    least one batch. *)
Theorem empty_loader_division_by_zero bstep (dl : DataLoader) :
  loader_ok dl -> loader_len dl = 0%Z ->
  (forall p e, train_epoch bstep p (pass dl e) (loader_len dl) =
               Raise ZeroDivisionError) /\
  (forall p epochs, train bstep dl (S epochs) p = ([], Raise ZeroDivisionError)) /\
  (forall p bs r, train_epoch bstep p bs (len bs) = Ok r -> bs <> []).
Proof.
  intros Hdl Hn.
  assert (He : forall e, pass dl e = []).
  { intros e; specialize (Hdl e); unfold len in Hdl.
    destruct (pass dl e); [reflexivity | simpl in Hdl; lia]. }
  assert (H1 : forall p e, train_epoch bstep p (pass dl e) (loader_len dl) =
                           Raise ZeroDivisionError).
  { intros p e; rewrite He, Hn; reflexivity. }
  split; [exact H1|]; split.
  - intros p epochs; unfold train; simpl; rewrite H1; reflexivity.
  - intros p bs r H ->; discriminate H.
Qed.

Lemma empty_loader_division_by_zero_witness :
  (forall p e, train_epoch no_update p (pass empty_loader e) (loader_len empty_loader) =
               Raise ZeroDivisionError) /\
  (forall p epochs, train no_update empty_loader (S epochs) p =
                    ([], Raise ZeroDivisionError)) /\
  (forall p bs r, train_epoch no_update p bs (len bs) = Ok r -> bs <> []).
Proof.
  apply (empty_loader_division_by_zero no_update empty_loader).
  - intros e; reflexivity.
  - reflexivity.
Defined.

(** ** Parameter names *)

Lemma dec_no_dot (k : nat) : no_dot (dec k) = true.
Proof.
  unfold dec; generalize (Nat.to_uint k); intros u.
  induction u; simpl; auto.
Qed.

Lemma dec_inj (a b : nat) : dec a = dec b -> a = b.
Proof.
  unfold dec; intros H; apply DecimalNat.Unsigned.to_uint_inj.
  apply (f_equal NilEmpty.uint_of_string) in H.
  rewrite !NilEmpty.usu in H; now injection H.
Qed.

Lemma append_dot_inj (a b r1 r2 : string) :
  no_dot a = true -> no_dot b = true ->
  (a ++ String "." r1)%string = (b ++ String "." r2)%string ->
  a = b /\ r1 = r2.
Proof.
  revert b; induction a as [|c a IH]; intros [|c' b]; simpl; intros Ha Hb H.
  - injection H as ->; auto.
  - injection H as <- _; discriminate Hb.
  - injection H as -> _; discriminate Ha.
  - injection H as -> H.
    apply andb_true_iff in Ha, Hb.
    destruct (IH b (proj2 Ha) (proj2 Hb) H) as [-> ->]; auto.
Qed.

Lemma append_inj_l (s a b : string) : (s ++ a)%string = (s ++ b)%string -> a = b.
Proof. induction s as [|c s IH]; simpl; [auto | intros [= H]; auto]. Qed.

Lemma string_app_assoc (a b c : string) :
  ((a ++ b) ++ c)%string = (a ++ (b ++ c))%string.
Proof. induction a as [|x a IH]; simpl; [reflexivity | now rewrite IH]. Qed.

Lemma hidden_key_inj (a b : nat) (k1 k2 : string) :
  (hidden_prefix a ++ String "." k1)%string = (hidden_prefix b ++ String "." k2)%string ->
  a = b /\ k1 = k2.
Proof.
  unfold hidden_prefix; rewrite !string_app_assoc; intros H.
  apply append_inj_l, append_dot_inj in H; auto using dec_no_dot.
  destruct H as [H ->]; auto using dec_inj.
Qed.

Lemma weight_key_neq (a b : nat) :
  String.eqb (weight_key (hidden_prefix a)) (weight_key (hidden_prefix b)) =
  Nat.eqb a b.
Proof.
  destruct (Nat.eqb_spec a b) as [->|N]; [apply String.eqb_refl|].
  apply String.eqb_neq; intros H; apply hidden_key_inj in H; tauto.
Qed.

Lemma bias_key_neq (a b : nat) :
  String.eqb (bias_key (hidden_prefix a)) (bias_key (hidden_prefix b)) =
  Nat.eqb a b.
Proof.
  destruct (Nat.eqb_spec a b) as [->|N]; [apply String.eqb_refl|].
  apply String.eqb_neq; intros H; apply hidden_key_inj in H; tauto.
Qed.

Lemma weight_bias_key_neq (a b : nat) :
  String.eqb (weight_key (hidden_prefix a)) (bias_key (hidden_prefix b)) = false.
Proof.
  apply String.eqb_neq; intros H; apply hidden_key_inj in H.
  destruct H as [_ H]; discriminate H.
Qed.

Lemma bias_weight_key_neq (a b : nat) :
  String.eqb (bias_key (hidden_prefix a)) (weight_key (hidden_prefix b)) = false.
Proof.
  apply String.eqb_neq; intros H; apply hidden_key_inj in H.
  destruct H as [_ H]; discriminate H.
Qed.

Lemma output_key_not_hidden (b : nat) :
  String.eqb (weight_key "output") (weight_key (hidden_prefix b)) = false /\
  String.eqb (weight_key "output") (bias_key (hidden_prefix b)) = false /\
  String.eqb (bias_key "output") (weight_key (hidden_prefix b)) = false /\
  String.eqb (bias_key "output") (bias_key (hidden_prefix b)) = false.
Proof.
  repeat split; apply String.eqb_neq; intros H; discriminate H.
Qed.

(** ** Looking parameters up in a state dict *)

Lemma lookup_app (key : string) (a b : StateDict) :
  lookup key (a ++ b) =
  match lookup key a with Some t => Some t | None => lookup key b end.
Proof.
  induction a as [|[k t] a IH]; simpl; [reflexivity|].
  destruct (String.eqb key k); [reflexivity | exact IH].
Qed.

Lemma lookup_in_keys (key : string) (sd : StateDict) :
  In key (map fst sd) -> exists t, lookup key sd = Some t.
Proof.
  induction sd as [|[k t] sd IH]; simpl; [tauto|].
  intros [->|H]; [rewrite String.eqb_refl; eauto|].
  destruct (String.eqb key k); eauto.
Qed.

Lemma lookup_output_hidden (k0 : nat) (ls : list Linear) :
  lookup (weight_key "output") (hidden_state k0 ls) = None /\
  lookup (bias_key "output") (hidden_state k0 ls) = None.
Proof.
  revert k0; induction ls as [|l ls IH]; intros k0; [split; reflexivity|].
  cbn [hidden_state]; unfold linear_state; cbn [Datatypes.app lookup].
  destruct (output_key_not_hidden k0) as (-> & -> & -> & ->).
  apply IH.
Qed.

Lemma lookup_hidden (ls : list Linear) (k0 k : nat) (l : Linear) (rest : StateDict) :
  nth_error ls k = Some l ->
  lookup (weight_key (hidden_prefix (k0 + k))) (hidden_state k0 ls ++ rest) =
    Some (weight l) /\
  lookup (bias_key (hidden_prefix (k0 + k))) (hidden_state k0 ls ++ rest) =
    Some (bias l).
Proof.
  revert k0 k; induction ls as [|l0 ls IH]; intros k0 [|k]; simpl nth_error;
    try discriminate; cbn [hidden_state]; unfold linear_state; cbn [Datatypes.app lookup].
  - intros [= ->]; rewrite Nat.add_0_r.
    rewrite !String.eqb_refl, bias_weight_key_neq; auto.
  - intros H.
    rewrite weight_key_neq, weight_bias_key_neq, bias_weight_key_neq, bias_key_neq.
    replace (Nat.eqb (k0 + S k) k0) with false by (symmetry; apply Nat.eqb_neq; lia).
    rewrite Nat.add_succ_r; apply (IH (S k0) k H).
Qed.

Lemma lookup_output (ls : list Linear) (lo : Linear) :
  lookup (weight_key "output") (hidden_state 0 ls ++ linear_state "output" lo) =
    Some (weight lo) /\
  lookup (bias_key "output") (hidden_state 0 ls ++ linear_state "output" lo) =
    Some (bias lo).
Proof.
  rewrite !lookup_app.
  destruct (lookup_output_hidden 0 ls) as [-> ->]; split; reflexivity.
Qed.

(** ** Loading a state dict *)

Lemma size_mismatches_app (sd a b : StateDict) :
  size_mismatches sd (a ++ b) = size_mismatches sd a ++ size_mismatches sd b.
Proof.
  induction a as [|[k t] a IH]; simpl; [reflexivity|].
  destruct (lookup k sd) as [u|]; [|exact IH].
  destruct (shape_eqb (shape u) (shape t)); simpl; now rewrite IH.
Qed.

Lemma load_linear_same (sd : StateDict) (prefix : string) (f l : Linear) :
  lookup (weight_key prefix) sd = Some (weight l) ->
  lookup (bias_key prefix) sd = Some (bias l) ->
  same_layout f l ->
  load_linear sd prefix f = l /\ size_mismatches sd (linear_state prefix f) = [].
Proof.
  intros Hw Hb (Hi & Ho & Hsw & Hsb).
  unfold load_linear, copy_param, linear_state; simpl.
  rewrite Hw, Hb, Hi, Ho, Hsw, Hsb, !shape_eqb_refl.
  destruct l as [i o [sw dw] [sb db]]; simpl; auto.
Qed.

Lemma load_hidden_same (sd : StateDict) (fs ls : list Linear) (k0 : nat) :
  Forall2 same_layout fs ls ->
  (forall k l, nth_error ls k = Some l ->
     lookup (weight_key (hidden_prefix (k0 + k))) sd = Some (weight l) /\
     lookup (bias_key (hidden_prefix (k0 + k))) sd = Some (bias l)) ->
  load_hidden sd k0 fs = ls /\ size_mismatches sd (hidden_state k0 fs) = [].
Proof.
  intros H; revert k0; induction H as [|f l fs ls Hfl _ IH]; intros k0 Hl;
    [split; reflexivity|].
  cbn [load_hidden hidden_state]; rewrite size_mismatches_app.
  destruct (Hl 0 l eq_refl) as [Hw Hb]; rewrite Nat.add_0_r in Hw, Hb.
  destruct (load_linear_same sd (hidden_prefix k0) f l Hw Hb Hfl) as [-> ->].
  destruct (IH (S k0)) as [-> ->]; [|split; reflexivity].
  intros k l' Hk; replace (S k0 + k) with (k0 + S k) by lia; apply (Hl (S k) l' Hk).
Qed.

Lemma hidden_state_keys (fs ls : list Linear) (k0 : nat) :
  length fs = length ls ->
  map fst (hidden_state k0 fs) = map fst (hidden_state k0 ls).
Proof.
  revert ls k0; induction fs as [|f fs IH]; intros [|l ls] k0; simpl;
    try discriminate; [reflexivity|].
  intros [= H]; now rewrite (IH ls (S k0) H).
Qed.

Lemma missing_keys_none (sd own : StateDict) :
  map fst own = map fst sd -> missing_keys sd own = [].
Proof.
  unfold missing_keys; intros ->.
  assert (H : forall keys, incl keys (map fst sd) ->
    filter (fun key => match lookup key sd with Some _ => false | None => true end)
           keys = []).
  { induction keys as [|k keys IH]; intros Hin; simpl; [reflexivity|].
    destruct (lookup_in_keys k sd (Hin k (or_introl eq_refl))) as (t & ->).
    apply IH; intros x Hx; apply Hin; right; exact Hx. }
  apply H, incl_refl.
Qed.

Lemma unexpected_keys_none (sd own : StateDict) :
  map fst own = map fst sd -> unexpected_keys sd own = [].
Proof.
  unfold unexpected_keys; intros ->.
  assert (H : forall keys, incl keys (map fst sd) ->
    filter (fun key => negb (mem key (map fst sd))) keys = []).
  { induction keys as [|k keys IH]; intros Hin; simpl; [reflexivity|].
    replace (mem k (map fst sd)) with true.
    - apply IH; intros x Hx; apply Hin; right; exact Hx.
    - symmetry; apply existsb_exists; exists k; split;
        [apply Hin; left; reflexivity | apply String.eqb_refl]. }
  apply H, incl_refl.
Qed.

(** ** The constructor *)

Lemma last_cons (l : list Z) (a d : Z) : last (a :: l) d = last l a.
Proof.
  revert a d; induction l as [|b l IH]; intros a d; [reflexivity|].
  change (last (a :: b :: l) d) with (last (b :: l) d).
  rewrite (IH b d), (IH b a); reflexivity.
Qed.


Lemma hidden_out_features iw ib (i : Z) (hs : list Z) :
  map out_features
      (map (fun io => nn_Linear iw ib (fst io) (snd io))
           (consecutive_pairs (i :: hs))) = hs.
Proof.
  revert i; induction hs as [|h hs IH]; intros i; [reflexivity|].
  change (consecutive_pairs (i :: h :: hs))
    with ((i, h) :: consecutive_pairs (h :: hs)).
  cbn [map]; rewrite IH; reflexivity.
Qed.

Lemma Network_init_ok iw ib (i o : Z) (hs : list Z) (p : R) :
  (0 < i)%Z -> (0 < o)%Z -> Forall (fun h => (0 < h)%Z) hs ->
  Network_init iw ib i o hs p =
  Ok (mkNetwork
        (map (fun io => nn_Linear iw ib (fst io) (snd io))
             (consecutive_pairs (i :: hs)))
        (nn_Linear iw ib (last hs i) o) p true).
Proof.
  intros Hi Ho Hh; unfold Network_init, sizes_okb.
  apply Z.ltb_lt in Hi, Ho; rewrite Hi, Ho; simpl.
  replace (forallb (Z.ltb 0) hs) with true; [reflexivity|].
  symmetry; apply forallb_forall; intros h Hin; apply Z.ltb_lt.
  revert h Hin; apply Forall_forall, Hh.
Qed.

Lemma Network_init_inv iw ib (i o : Z) (hs : list Z) (p : R) (net : Network) :
  Network_init iw ib i o hs p = Ok net ->
  sizes_okb i o hs = true /\
  net = mkNetwork
          (map (fun io => nn_Linear iw ib (fst io) (snd io))
               (consecutive_pairs (i :: hs)))
          (nn_Linear iw ib (last hs i) o) p true.
Proof.
  unfold Network_init; destruct (sizes_okb i o hs); [|discriminate].
  intros [= <-]; auto.
Qed.

Lemma nn_Linear_okb iw ib (i o : Z) :
  (0 < i)%Z -> (0 < o)%Z -> linear_okb (nn_Linear iw ib i o) = true.
Proof.
  intros Hi Ho; unfold linear_okb, tensor_okb, len; simpl.
  rewrite !length_map, !length_seq, !Z.eqb_refl.
  repeat (apply andb_true_iff; split);
    try (apply Z.ltb_lt; lia); try (apply Z.leb_le; lia);
    try reflexivity; apply Z.eqb_eq; lia.
Qed.

(** The constructor establishes the chaining invariant. *)
Lemma chain_okb_fresh iw ib (hs : list Z) (i o : Z) :
  (0 < i)%Z -> (0 < o)%Z -> Forall (fun h => (0 < h)%Z) hs ->
  chain_okb i (map (fun io => nn_Linear iw ib (fst io) (snd io))
                   (consecutive_pairs (i :: hs)) ++
               [nn_Linear iw ib (last hs i) o]) = true.
Proof.
  intros Hi Ho Hh; revert i Hi; induction Hh as [|h hs Hpos _ IH]; intros i Hi.
  - simpl; rewrite Z.eqb_refl; simpl.
    change (linear_okb (nn_Linear iw ib i o) && true = true).
    rewrite nn_Linear_okb by assumption; reflexivity.
  - change (consecutive_pairs (i :: h :: hs))
      with ((i, h) :: consecutive_pairs (h :: hs)).
    rewrite last_cons; cbn [map Datatypes.app chain_okb fst snd].
    rewrite nn_Linear_okb by assumption.
    change (in_features (nn_Linear iw ib i h)) with i.
    change (out_features (nn_Linear iw ib i h)) with h.
    rewrite Z.eqb_refl, (IH h Hpos); reflexivity.
Qed.

Lemma sizes_okb_spec (i o : Z) (hs : list Z) :
  sizes_okb i o hs = true <->
  (0 < i)%Z /\ (0 < o)%Z /\ Forall (fun h => (0 < h)%Z) hs.
Proof.
  unfold sizes_okb; rewrite !andb_true_iff, !Z.ltb_lt, forallb_forall, Forall_forall.
  split; [intros ((Hi & Ho) & H) | intros (Hi & Ho & H)]; repeat split; auto;
    intros h Hin; apply Z.ltb_lt || apply -> Z.ltb_lt; auto.
Qed.

Lemma Network_init_network_ok iw ib (i o : Z) (hs : list Z) (p : R) (net : Network) :
  Network_init iw ib i o hs p = Ok net ->
  network_okb net = true /\ net_input_size net = i /\ net_output_size net = o.
Proof.
  intros H; apply Network_init_inv in H; destruct H as [Hs ->].
  apply sizes_okb_spec in Hs; destruct Hs as (Hi & Ho & Hh).
  assert (Hin : net_input_size
                  (mkNetwork
                     (map (fun io => nn_Linear iw ib (fst io) (snd io))
                          (consecutive_pairs (i :: hs)))
                     (nn_Linear iw ib (last hs i) o) p true) = i).
  { unfold net_input_size; simpl; destruct hs; reflexivity. }
  repeat split; [|exact Hin].
  unfold network_okb; rewrite Hin; apply chain_okb_fresh; assumption.
Qed.

(** The layers that the constructor allocates for the sizes of a well-formed
    classifier have the layout of the layers of that classifier. *)
Lemma fresh_layout iw ib (ls : list Linear) (lo : Linear) (i : Z) :
  chain_okb i (ls ++ [lo]) = true ->
  Forall2 same_layout
          (map (fun io => nn_Linear iw ib (fst io) (snd io))
               (consecutive_pairs (i :: map out_features ls))) ls /\
  same_layout (nn_Linear iw ib (last (map out_features ls) i) (out_features lo)) lo /\
  Forall (fun h => (0 < h)%Z) (map out_features ls) /\
  (0 < out_features lo)%Z.
Proof.
  assert (Hl : forall l j, (in_features l =? j)%Z && linear_okb l = true ->
                           same_layout (nn_Linear iw ib j (out_features l)) l /\
                           (0 < out_features l)%Z).
  { intros l j; unfold linear_okb; rewrite !andb_true_iff, Z.eqb_eq, !Z.ltb_lt.
    intros (<- & ((((_ & Ho) & Hw) & Hb) & _) & _).
    apply shape_eqb_eq in Hw, Hb; unfold same_layout; simpl; auto. }
  revert i; induction ls as [|l ls IH]; intros i; cbn [Datatypes.app chain_okb].
  - rewrite andb_true_r; intros H; destruct (Hl lo i H) as [H1 H2].
    simpl; split; [constructor | split; [exact H1 | split; [constructor | exact H2]]].
  - rewrite andb_true_iff; intros [H Hc]; destruct (Hl l i H) as [H1 H2].
    destruct (IH _ Hc) as (F & Lo & P & Po).
    cbn [map]; rewrite last_cons.
    change (consecutive_pairs (i :: out_features l :: map out_features ls))
      with ((i, out_features l) :: consecutive_pairs (out_features l :: map out_features ls)).
    cbn [map fst snd].
    split; [constructor; assumption |
            split; [exact Lo | split; [constructor; assumption | exact Po]]].
Qed.

(** ** Saving and loading a checkpoint *)

(** What [load_checkpoint] returns on the file written from a well-formed
    classifier for 784 inputs and 10 classes. *)
Lemma load_saved_checkpoint iw ib (fs : Files) (filepath : string) (C : Network) :
  network_okb C = true -> net_input_size C = 784%Z -> net_output_size C = 10%Z ->
  load_checkpoint iw ib (save_checkpoint C filepath fs) filepath =
  Ok (mkNetwork (hidden_layers C) (output C) default_drop_p true).
Proof.
  unfold network_okb, net_output_size, layers; intros Hok Hi Ho; rewrite Hi in Hok.
  destruct (fresh_layout iw ib _ _ _ Hok) as (F & Lo & P & _).
  unfold load_checkpoint, save_checkpoint, torch_load, torch_save.
  rewrite String.eqb_refl; cbn [bind checkpoint ckpt_input_size ckpt_output_size
                                  ckpt_hidden_layers ckpt_state_dict].
  rewrite Network_init_ok by (assumption || lia); cbn [bind].
  rewrite Ho in Lo.
  set (fresh := map _ (consecutive_pairs _)) in *.
  set (fresh_out := nn_Linear iw ib _ 10) in *.
  assert (Hh : load_hidden (state_dict C) 0 fresh = hidden_layers C /\
               size_mismatches (state_dict C) (hidden_state 0 fresh) = []).
  { apply load_hidden_same; [exact F|].
    intros k l Hk; apply (lookup_hidden (hidden_layers C) 0 k l _ Hk). }
  destruct (lookup_output (hidden_layers C) (output C)) as [Hw Hb].
  destruct (load_linear_same (state_dict C) "output" fresh_out (output C) Hw Hb Lo)
    as [Hlo Hmo].
  assert (Hkeys : map fst (state_dict (mkNetwork fresh fresh_out default_drop_p true)) =
                  map fst (state_dict C)).
  { unfold state_dict; simpl; rewrite !map_app; f_equal.
    apply hidden_state_keys, (Forall2_length F). }
  unfold load_state_dict, error_msgs.
  rewrite (missing_keys_none _ _ Hkeys), (unexpected_keys_none _ _ Hkeys).
  unfold state_dict at 2; cbn [hidden_layers output nonempty Datatypes.app].
  rewrite size_mismatches_app, (proj2 Hh), Hmo; cbn [Datatypes.app dropout training].
  rewrite (proj1 Hh), Hlo; reflexivity.
Qed.

Lemma forward_hidden_eval mask (p q : R) (ls : list Linear) (k : nat) (x : Tensor) :
  forward_hidden mask false p k ls x = forward_hidden mask false q k ls x.
Proof.
  revert k x; induction ls as [|l ls IH]; intros k x; simpl; [reflexivity|].
  destruct (linear_forward l x); simpl; [apply IH | reflexivity].
Qed.

Lemma forward_eval_layers mask (C C' : Network) (x : Tensor) :
  hidden_layers C' = hidden_layers C -> output C' = output C ->
  forward_eval mask C' x = forward_eval mask C x.
Proof.
  unfold forward_eval, forward; simpl; intros -> ->.
  now rewrite (forward_hidden_eval mask (dropout C') (dropout C)).
Qed.

Lemma in_size_mismatches (sd own : StateDict) (key : string) (p t : Tensor) :
  In (key, p) own -> lookup key sd = Some t -> shape t <> shape p ->
  In (SizeMismatch key (shape t) (shape p)) (size_mismatches sd own).
Proof.
  intros Hin Hl Hs; induction own as [|[k q] own IH]; simpl in *; [tauto|].
  destruct Hin as [[= -> ->]|Hin].
  - rewrite Hl.
    destruct (shape_eqb (shape t) (shape p)) eqn:E; [|left; reflexivity].
    apply shape_eqb_eq in E; contradiction.
  - destruct (lookup k sd) as [u|]; [|auto].
    destruct (shape_eqb (shape u) (shape q)); [auto | right; auto].
Qed.

(** A size mismatch is reported only for a parameter whose shapes differ. *)
Lemma size_mismatches_sound (sd own : StateDict) (key : string) (s s' : list Z) :
  In (SizeMismatch key s s') (size_mismatches sd own) ->
  exists p t, In (key, p) own /\ lookup key sd = Some t /\
              s = shape t /\ s' = shape p /\ s <> s'.
Proof.
  induction own as [|[k q] own IH]; simpl; [tauto|].
  assert (IH' : In (SizeMismatch key s s') (size_mismatches sd own) ->
                exists p t, ((k, q) = (key, p) \/ In (key, p) own) /\
                            lookup key sd = Some t /\
                            s = shape t /\ s' = shape p /\ s <> s').
  { intros H; destruct (IH H) as (p & t & H1 & H2); exists p, t; auto. }
  destruct (lookup k sd) as [u|] eqn:E; [|exact IH'].
  destruct (shape_eqb (shape u) (shape q)) eqn:Es; [exact IH'|].
  intros [[= <- <- <-]|H]; [|exact (IH' H)].
  exists q, u; repeat split; auto.
  intros Heq; apply shape_eqb_eq in Heq; congruence.
Qed.

Lemma load_state_dict_raise (net : Network) (sd : StateDict) :
  error_msgs sd (state_dict net) <> [] ->
  load_state_dict net sd =
  Raise (RuntimeError (LoadStateDict (error_msgs sd (state_dict net)))).
Proof.
  unfold load_state_dict; destruct (error_msgs sd (state_dict net));
    [congruence | reflexivity].
Qed.

(** ** The claims about checkpoints *)

(** C1, as the code has it: the checkpoint cell writes the constants 784 and
    10 for the input and output sizes, so for a well-formed classifier with
    784 inputs and 10 classes, [load_checkpoint] on the file written from it
    returns a classifier with the same input size, output size, hidden sizes
    and layers (weights and biases included), and its evaluation-mode forward
    output is the same on every batch. *)
Theorem checkpoint_round_trip iw ib mask (fs : Files) (filepath : string)
        (C : Network) :
  network_okb C = true -> net_input_size C = 784%Z -> net_output_size C = 10%Z ->
  exists C',
    load_checkpoint iw ib (save_checkpoint C filepath fs) filepath = Ok C' /\
    net_input_size C' = net_input_size C /\
    net_output_size C' = net_output_size C /\
    hidden_sizes C' = hidden_sizes C /\
    layers C' = layers C /\
    forall x, forward_eval mask C' x = forward_eval mask C x.
Proof.
  intros Hok Hi Ho; eexists; split;
    [apply load_saved_checkpoint; assumption|].
  repeat split; intros x; apply forward_eval_layers; reflexivity.
Qed.

Lemma checkpoint_round_trip_witness :
  exists C',
    load_checkpoint zero_init zero_init
      (save_checkpoint demo_net "checkpoint.pth" no_files) "checkpoint.pth" = Ok C' /\
    net_input_size C' = net_input_size demo_net /\
    net_output_size C' = net_output_size demo_net /\
    hidden_sizes C' = hidden_sizes demo_net /\
    layers C' = layers demo_net /\
    forall x, forward_eval keep_all C' x = forward_eval keep_all demo_net x.
Proof.
  apply (checkpoint_round_trip zero_init zero_init keep_all no_files
                               "checkpoint.pth" demo_net);
    [vm_compute; reflexivity | reflexivity | reflexivity].
Defined.

(** C1 fails as stated: the classifier that [Network(2, 10, [3])] builds is
    saved with [input_size] 784, and loading the file raises the size
    mismatch of its first weight instead of returning a classifier. *)
Lemma checkpoint_round_trip_counterexample :
  Network_init zero_init zero_init 2 10 [3%Z] default_drop_p = Ok small_net /\
  network_okb small_net = true /\
  load_checkpoint zero_init zero_init
    (save_checkpoint small_net "checkpoint.pth" no_files) "checkpoint.pth" =
  Raise (RuntimeError (LoadStateDict
           [SizeMismatch "hidden_layers.0.weight" [3; 2]%Z [3; 784]%Z])) /\
  ~ (exists C',
       load_checkpoint zero_init zero_init
         (save_checkpoint small_net "checkpoint.pth" no_files) "checkpoint.pth" = Ok C' /\
       net_input_size C' = net_input_size small_net).
Proof.
  assert (H : load_checkpoint zero_init zero_init
                (save_checkpoint small_net "checkpoint.pth" no_files) "checkpoint.pth" =
              Raise (RuntimeError (LoadStateDict
                [SizeMismatch "hidden_layers.0.weight" [3; 2]%Z [3; 784]%Z])))
    by (vm_compute; reflexivity).
  split; [vm_compute; reflexivity|]; split; [vm_compute; reflexivity|].
  split; [exact H|].
  intros (C' & E & _); rewrite H in E; discriminate E.
Qed.

(** C2: when the sizes of a record describe an architecture and a parameter
    stored in the record has another shape than the parameter of that name
    in this architecture, [load_checkpoint] raises the [RuntimeError] of
    [load_state_dict], whose message has, for every such parameter, an entry
    with its name, the shape in the record and the shape in the model. *)
Theorem shape_mismatch_rejected iw ib (fs : Files) (filepath : string)
        (ckpt : Checkpoint) (fresh : Network) :
  torch_load fs filepath = Ok ckpt ->
  Network_init iw ib (ckpt_input_size ckpt) (ckpt_output_size ckpt)
               (ckpt_hidden_layers ckpt) default_drop_p = Ok fresh ->
  (exists key own t,
      In (key, own) (state_dict fresh) /\
      lookup key (ckpt_state_dict ckpt) = Some t /\ shape t <> shape own) ->
  exists msgs,
    load_checkpoint iw ib fs filepath = Raise (RuntimeError (LoadStateDict msgs)) /\
    forall key own t,
      In (key, own) (state_dict fresh) ->
      lookup key (ckpt_state_dict ckpt) = Some t -> shape t <> shape own ->
      In (SizeMismatch key (shape t) (shape own)) msgs.
Proof.
  intros Hload Hinit Hbad.
  assert (Hin : forall key own t,
             In (key, own) (state_dict fresh) ->
             lookup key (ckpt_state_dict ckpt) = Some t -> shape t <> shape own ->
             In (SizeMismatch key (shape t) (shape own))
                (error_msgs (ckpt_state_dict ckpt) (state_dict fresh))).
  { intros key own t H1 H2 H3; unfold error_msgs.
    apply in_or_app; right; apply in_or_app; right.
    apply in_size_mismatches; assumption. }
  exists (error_msgs (ckpt_state_dict ckpt) (state_dict fresh)); split; [|exact Hin].
  unfold load_checkpoint; rewrite Hload; cbn [bind]; rewrite Hinit; cbn [bind].
  rewrite load_state_dict_raise; [reflexivity|].
  destruct Hbad as (key & own & t & H1 & H2 & H3).
  intros E; specialize (Hin key own t H1 H2 H3); rewrite E in Hin; exact Hin.
Qed.

Lemma shape_mismatch_rejected_witness :
  exists msgs,
    load_checkpoint zero_init zero_init edited_files "checkpoint.pth" =
      Raise (RuntimeError (LoadStateDict msgs)) /\
    forall key own t,
      In (key, own) (state_dict small_net) ->
      lookup key (ckpt_state_dict edited_checkpoint) = Some t ->
      shape t <> shape own ->
      In (SizeMismatch key (shape t) (shape own)) msgs.
Proof.
  apply (shape_mismatch_rejected zero_init zero_init edited_files "checkpoint.pth"
                                 edited_checkpoint small_net).
  - reflexivity.
  - vm_compute; reflexivity.
  - exists "hidden_layers.0.weight"%string, (weight (zero_linear 2 3)),
           (weight (zero_linear 2 4)).
    split; [left; reflexivity|]; split; [reflexivity|].
    simpl; intros H; discriminate H.
Defined.

(** ** The claims about construction *)






(** C5: the checkpoint of a classifier records as hidden sizes the
    [out_features] of every layer but the last, in layer order, and for a
    classifier built by the constructor this is the sequence of hidden sizes
    that the constructor was given. *)
Theorem checkpoint_records_hidden_sizes iw ib (i o : Z) (hs : list Z) (p : R)
        (net : Network) :
  Network_init iw ib i o hs p = Ok net ->
  ckpt_hidden_layers (checkpoint net) = map out_features (removelast (layers net)) /\
  ckpt_hidden_layers (checkpoint net) = hs.
Proof.
  intros H; split.
  - unfold layers; rewrite removelast_last; reflexivity.
  - apply Network_init_inv in H; destruct H as [_ ->]; simpl.
    apply hidden_out_features.
Qed.

Lemma checkpoint_records_hidden_sizes_witness :
  ckpt_hidden_layers (checkpoint small_net) =
    map out_features (removelast (layers small_net)) /\
  ckpt_hidden_layers (checkpoint small_net) = [3%Z].
Proof.
  apply (checkpoint_records_hidden_sizes zero_init zero_init
                                         2%Z 10%Z [3%Z] default_drop_p small_net).
  vm_compute; reflexivity.
Defined.

Lemma load_checkpoint_dropout iw ib (fs : Files) (filepath : string) (net : Network) :
  load_checkpoint iw ib fs filepath = Ok net -> dropout net = default_drop_p.
Proof.
  unfold load_checkpoint.
  destruct (torch_load fs filepath) as [c|]; cbn [bind]; [|discriminate].
  destruct (Network_init iw ib (ckpt_input_size c) (ckpt_output_size c)
                         (ckpt_hidden_layers c) default_drop_p) as [m|] eqn:E;
    cbn [bind]; [|discriminate].
  apply Network_init_inv in E; destruct E as [_ ->].
  unfold load_state_dict; destruct (error_msgs _ _); cbn [bind]; [|discriminate].
  intros [= <-]; reflexivity.
Qed.

(** C6: the classifier that [load_checkpoint] returns has the default
    dropout rate: this holds for the file written from a classifier whatever
    the dropout rate of that classifier, and for every file from which
    [load_checkpoint] returns a classifier. *)
Theorem loaded_dropout_is_default iw ib (fs : Files) (filepath : string)
        (C : Network) :
  network_okb C = true -> net_input_size C = 784%Z -> net_output_size C = 10%Z ->
  (exists C',
      load_checkpoint iw ib (save_checkpoint C filepath fs) filepath = Ok C' /\
      dropout C' = default_drop_p) /\
  (forall fs' filepath' net,
      load_checkpoint iw ib fs' filepath' = Ok net -> dropout net = default_drop_p).
Proof.
  intros Hok Hi Ho; split.
  - eexists; split; [apply load_saved_checkpoint; assumption | reflexivity].
  - intros fs' filepath' net; apply load_checkpoint_dropout.
Qed.

Lemma loaded_dropout_is_default_witness :
  (exists C',
      load_checkpoint zero_init zero_init
        (save_checkpoint demo_net "checkpoint.pth" no_files) "checkpoint.pth" = Ok C' /\
      dropout C' = default_drop_p) /\
  (forall fs' filepath' net,
      load_checkpoint zero_init zero_init fs' filepath' = Ok net ->
      dropout net = default_drop_p).
Proof.
  apply (loaded_dropout_is_default zero_init zero_init no_files "checkpoint.pth" demo_net);
    [vm_compute; reflexivity | reflexivity | reflexivity].
Defined.

(** The classifier of the witness was built with another dropout rate. *)
Lemma demo_net_dropout : dropout demo_net <> default_drop_p.
Proof. unfold demo_net, default_drop_p; simpl; lra. Qed.

(** C8: the constructor raises [ConfigurationError], as its result, when
    the input size, the output size or one of the hidden sizes is not
    positive. *)
Theorem construction_rejects_nonpositive_sizes iw ib (i o : Z) (hs : list Z) (p : R) :
  (i <= 0 \/ o <= 0 \/ exists h, In h hs /\ h <= 0)%Z ->
  Network_init iw ib i o hs p = Raise ConfigurationError.
Proof.
  intros H; unfold Network_init.
  destruct (sizes_okb i o hs) eqn:E; [|reflexivity].
  apply sizes_okb_spec in E; destruct E as (Hi & Ho & Hh).
  destruct H as [H|[H|(h & Hin & H)]]; try lia.
  rewrite Forall_forall in Hh; specialize (Hh h Hin); lia.
Qed.

Lemma construction_rejects_nonpositive_sizes_witness :
  Network_init zero_init zero_init 784 10 [512; 0; 128]%Z default_drop_p =
  Raise ConfigurationError.
Proof.
  apply (construction_rejects_nonpositive_sizes zero_init zero_init
           784%Z 10%Z [512; 0; 128]%Z default_drop_p).
  right; right; exists 0%Z; split; [right; left; reflexivity | lia].
Defined.

(** With positive sizes the constructor returns a classifier that satisfies
    the chaining invariant. *)
Lemma construction_accepts_positive_sizes iw ib (i o : Z) (hs : list Z) (p : R) :
  (0 < i)%Z -> (0 < o)%Z -> Forall (fun h => (0 < h)%Z) hs ->
  exists net, Network_init iw ib i o hs p = Ok net /\ network_okb net = true.
Proof.
  intros Hi Ho Hh; eexists; split; [apply Network_init_ok; assumption|].
  eapply Network_init_network_ok, Network_init_ok; assumption.
Qed.

(** ** Forward pass of the classifier *)

Lemma dropout_forward_shape mask (train : bool) (p : R) (k : nat) (x : Tensor) :
  shape (dropout_forward train p (mask k) x) = shape x.
Proof. destruct train; reflexivity. Qed.

Lemma forward_hidden_ok mask (train : bool) (p : R) (ls : list Linear) (lo : Linear)
      (i : Z) (k : nat) (x : Tensor) (n : Z) :
  chain_okb i (ls ++ [lo]) = true -> shape x = [n; i] ->
  exists h, forward_hidden mask train p k ls x = Ok h /\
            shape h = [n; in_features lo] /\ linear_okb lo = true.
Proof.
  revert i k x; induction ls as [|l ls IH]; intros i k x;
    cbn [Datatypes.app chain_okb forward_hidden];
    rewrite !andb_true_iff, Z.eqb_eq.
  - intros ((<- & Hl) & _) Hx; exists x; auto.
  - intros ((<- & Hl) & Hc) Hx.
    destruct (linear_forward_rows l x n Hl Hx) as (rs & -> & _); cbn [bind].
    apply (IH (out_features l)); [exact Hc|].
    rewrite dropout_forward_shape; reflexivity.
Qed.

(** In either mode, the forward pass of a well-formed classifier on a batch
    of the input width returns log-probabilities: one row per example, as
    wide as the output layer, whose exponentials sum to 1. *)
Lemma network_forward_normalised mask (net : Network) (x : Tensor) (n : Z) :
  network_okb net = true -> shape x = [n; net_input_size net] ->
  exists out,
    forward mask net x = Ok out /\
    shape out = [n; net_output_size net] /\
    length (rows (torch_exp out)) = Z.to_nat n /\
    Forall (fun r => Rsum r = 1%R) (rows (torch_exp out)).
Proof.
  unfold network_okb, layers, forward, net_output_size; intros Hok Hx.
  destruct (forward_hidden_ok mask (training net) (dropout net) _ _ _ 0 x n Hok Hx)
    as (h & -> & Hh & Hlo); cbn [bind].
  destruct (linear_forward_rows _ _ _ Hlo Hh) as (rs & -> & Hn & Hc); cbn [bind].
  rewrite (log_softmax_rows _ _ _ Hn Hc).
  eexists; split; [reflexivity|]; split; [reflexivity|].
  rewrite rows_torch_exp, rows_concat
    by (rewrite ?length_map; auto using Forall_log_softmax_length).
  rewrite !length_map; split; [exact Hn|].
  apply Forall_map, Forall_map; revert Hc; apply Forall_impl; intros r Hr.
  apply log_softmax_row_normalised; intros ->.
  unfold linear_okb in Hlo; rewrite !andb_true_iff, !Z.ltb_lt in Hlo.
  simpl in Hr; lia.
Qed.

(** ** When a state dict loads *)

Lemma filter_nil_iff (A : Type) (f : A -> bool) (l : list A) :
  filter f l = [] <-> forall x, In x l -> f x = false.
Proof.
  induction l as [|a l IH]; simpl; [tauto|].
  destruct (f a) eqn:E; split.
  - discriminate.
  - intros H; specialize (H a (or_introl eq_refl)); congruence.
  - intros H x [<-|Hx]; [exact E | apply IH; assumption].
  - intros H; apply IH; auto.
Qed.

Lemma nonempty_nil (A : Type) (l : list A) (x : list A -> LoadMsg) :
  nonempty l x = [] <-> l = [].
Proof. destruct l; simpl; split; congruence. Qed.

Lemma mem_In (key : string) (keys : list string) :
  mem key keys = true <-> In key keys.
Proof.
  unfold mem; rewrite existsb_exists; split.
  - intros (k & Hk & E); apply String.eqb_eq in E; now subst.
  - intros H; exists key; split; [exact H | apply String.eqb_refl].
Qed.

Lemma lookup_Some_In (key : string) (sd : StateDict) (t : Tensor) :
  lookup key sd = Some t -> In (key, t) sd.
Proof.
  induction sd as [|[k u] sd IH]; simpl; [discriminate|].
  destruct (String.eqb key k) eqn:E; [|auto].
  apply String.eqb_eq in E; intros [= ->]; subst; auto.
Qed.

Lemma lookup_None_iff (key : string) (sd : StateDict) :
  lookup key sd = None <-> ~ In key (map fst sd).
Proof.
  split.
  - intros H Hin; destruct (lookup_in_keys key sd Hin) as (t & E); congruence.
  - intros H; destruct (lookup key sd) as [t|] eqn:E; [|reflexivity].
    exfalso; apply H, in_map_iff; exists (key, t); split;
      [reflexivity | apply lookup_Some_In, E].
Qed.

Lemma size_mismatches_nil_iff (sd own : StateDict) :
  size_mismatches sd own = [] <->
  (forall key p t, In (key, p) own -> lookup key sd = Some t -> shape t = shape p).
Proof.
  split.
  - intros H key p t Hin Hl.
    destruct (shape_eqb (shape t) (shape p)) eqn:E; [apply shape_eqb_eq, E|].
    assert (Hs : shape t <> shape p)
      by (intros Heq; apply shape_eqb_eq in Heq; congruence).
    pose proof (in_size_mismatches sd own key p t Hin Hl Hs) as Hm.
    rewrite H in Hm; destruct Hm.
  - induction own as [|[k q] own IH]; intros H; simpl; [reflexivity|].
    assert (IH' : size_mismatches sd own = [])
      by (apply IH; intros key p t Hin; apply H; right; exact Hin).
    destruct (lookup k sd) as [u|] eqn:E; [|exact IH'].
    rewrite (proj2 (shape_eqb_eq _ _) (H k q u (or_introl eq_refl) E)); exact IH'.
Qed.

Lemma error_msgs_nil_iff (sd own : StateDict) :
  error_msgs sd own = [] <->
  (forall key p, In (key, p) own ->
     exists t, lookup key sd = Some t /\ shape t = shape p) /\
  (forall key, In key (map fst sd) -> In key (map fst own)).
Proof.
  unfold error_msgs, missing_keys, unexpected_keys.
  split.
  - intros H; apply app_eq_nil in H; destruct H as [Hm H].
    apply app_eq_nil in H; destruct H as [Hu Hs].
    apply nonempty_nil in Hm, Hu.
    rewrite filter_nil_iff in Hm, Hu; rewrite size_mismatches_nil_iff in Hs.
    split.
    + intros key p Hin.
      assert (Hk : In key (map fst own))
        by (apply in_map_iff; exists (key, p); auto).
      specialize (Hm key Hk); destruct (lookup key sd) as [t|] eqn:E;
        [|discriminate]. exists t; split; [reflexivity | eauto].
    + intros key Hin; specialize (Hu key Hin).
      apply negb_false_iff, mem_In in Hu; exact Hu.
  - intros [H1 H2].
    replace (filter _ (map fst own)) with (@nil string).
    replace (filter _ (map fst sd)) with (@nil string).
    + simpl; apply size_mismatches_nil_iff; intros key p t Hin Hl.
      destruct (H1 key p Hin) as (u & Hu & Hs); congruence.
    + symmetry; apply filter_nil_iff; intros key Hin.
      apply negb_false_iff, mem_In, H2, Hin.
    + symmetry; apply filter_nil_iff; intros key Hin.
      apply in_map_iff in Hin; destruct Hin as ([k p] & <- & Hin); cbn [fst].
      destruct (H1 k p Hin) as (u & -> & _); reflexivity.
Qed.

Lemma load_state_dict_ok_iff (net : Network) (sd : StateDict) :
  (exists net', load_state_dict net sd = Ok net') <->
  error_msgs sd (state_dict net) = [].
Proof.
  unfold load_state_dict.
  destruct (error_msgs sd (state_dict net)); split.
  - reflexivity.
  - eexists; reflexivity.
  - intros (net' & H); discriminate H.
  - discriminate.
Qed.

(** X2: [load_state_dict] returns a model exactly when every parameter of
    the model is stored in the dict with the shape it has in the model, and
    the dict stores nothing else. *)
Theorem load_state_dict_succeeds_iff (net : Network) (sd : StateDict) :
  (exists net', load_state_dict net sd = Ok net') <->
  (forall key own, In (key, own) (state_dict net) ->
     exists t, lookup key sd = Some t /\ shape t = shape own) /\
  (forall key, In key (map fst sd) -> In key (map fst (state_dict net))).
Proof.
  rewrite load_state_dict_ok_iff; apply error_msgs_nil_iff.
Qed.

Lemma hidden_state_loaded (sd : StateDict) (ls : list Linear) (k0 : nat) :
  hidden_state k0 (load_hidden sd k0 ls) =
  map (fun kp => (fst kp, copy_param sd (fst kp) (snd kp))) (hidden_state k0 ls).
Proof.
  revert k0; induction ls as [|l ls IH]; intros k0; [reflexivity|].
  cbn [load_hidden hidden_state]; rewrite map_app, IH; reflexivity.
Qed.

Lemma lookup_copied (sd own : StateDict) (key : string) :
  lookup key (map (fun kp => (fst kp, copy_param sd (fst kp) (snd kp))) own) =
  match lookup key own with
  | Some p => Some (copy_param sd key p)
  | None => None
  end.
Proof.
  induction own as [|[k p] own IH]; simpl; [reflexivity|].
  destruct (String.eqb key k) eqn:E; [|exact IH].
  apply String.eqb_eq in E; now subst.
Qed.

(** X3: after a successful load, [model.state_dict()] maps every key to the
    tensor that the loaded dict holds for it. *)
Theorem loaded_state_dict_agrees (net net' : Network) (sd : StateDict) :
  load_state_dict net sd = Ok net' ->
  forall key, lookup key (state_dict net') = lookup key sd.
Proof.
  intros H key.
  assert (He : error_msgs sd (state_dict net) = []).
  { unfold load_state_dict in H; destruct (error_msgs sd (state_dict net));
      [reflexivity | discriminate H]. }
  unfold load_state_dict in H; rewrite He in H; injection H as <-.
  apply error_msgs_nil_iff in He; destruct He as [H1 H2].
  assert (Hsd : state_dict
                  (mkNetwork (load_hidden sd 0 (hidden_layers net))
                             (load_linear sd "output" (output net))
                             (dropout net) (training net)) =
                map (fun kp => (fst kp, copy_param sd (fst kp) (snd kp)))
                    (state_dict net)).
  { unfold state_dict; cbn [hidden_layers output].
    rewrite map_app, hidden_state_loaded; reflexivity. }
  rewrite Hsd, lookup_copied.
  destruct (lookup key (state_dict net)) as [p|] eqn:E.
  - destruct (H1 key p (lookup_Some_In _ _ _ E)) as (t & Ht & Hs).
    unfold copy_param; rewrite Ht, (proj2 (shape_eqb_eq _ _) Hs), <- Hs.
    destruct t; reflexivity.
  - symmetry; apply lookup_None_iff; intros Hin.
    apply lookup_None_iff in E; apply E, H2, Hin.
Qed.

Lemma loaded_state_dict_agrees_witness :
  lookup "output.weight" (state_dict ones_net) =
  lookup "output.weight" (List.rev (state_dict ones_net)).
Proof.
  apply (loaded_state_dict_agrees small_net ones_net (List.rev (state_dict ones_net))).
  vm_compute; reflexivity.
Defined.

(** ** Loading the state dict of another model *)

Lemma same_layout_refl (l : Linear) : same_layout l l.
Proof. unfold same_layout; auto. Qed.

Lemma load_state_dict_same_layout (A B : Network) :
  Forall2 same_layout (hidden_layers A) (hidden_layers B) ->
  same_layout (output A) (output B) ->
  load_state_dict A (state_dict B) =
  Ok (mkNetwork (hidden_layers B) (output B) (dropout A) (training A)).
Proof.
  intros F Lo.
  assert (Hh : load_hidden (state_dict B) 0 (hidden_layers A) = hidden_layers B /\
               size_mismatches (state_dict B) (hidden_state 0 (hidden_layers A)) = []).
  { apply load_hidden_same; [exact F|].
    intros k l Hk; apply (lookup_hidden (hidden_layers B) 0 k l _ Hk). }
  destruct (lookup_output (hidden_layers B) (output B)) as [Hw Hb].
  destruct (load_linear_same (state_dict B) "output" (output A) (output B) Hw Hb Lo)
    as [Hlo Hmo].
  assert (Hkeys : map fst (state_dict A) = map fst (state_dict B)).
  { unfold state_dict; rewrite !map_app; f_equal.
    apply hidden_state_keys, (Forall2_length F). }
  unfold load_state_dict, error_msgs.
  rewrite (missing_keys_none _ _ Hkeys), (unexpected_keys_none _ _ Hkeys).
  unfold state_dict at 2; cbn [nonempty Datatypes.app].
  rewrite size_mismatches_app, (proj2 Hh), Hmo; cbn [Datatypes.app].
  rewrite (proj1 Hh), Hlo; reflexivity.
Qed.

(** X1: loading the state dict of a model [B] into a model [A] whose layers
    have the sizes and parameter shapes of the layers of [B] succeeds: [A]
    gets the weights and biases of [B] and keeps its dropout rate and its
    mode. *)
Theorem load_state_dict_copies_parameters (A B : Network) :
  Forall2 same_layout (hidden_layers A) (hidden_layers B) ->
  same_layout (output A) (output B) ->
  exists A',
    load_state_dict A (state_dict B) = Ok A' /\
    layers A' = layers B /\ state_dict A' = state_dict B /\
    dropout A' = dropout A /\ training A' = training A.
Proof.
  intros F Lo; eexists; split; [apply load_state_dict_same_layout; assumption|].
  repeat split.
Qed.

Lemma load_state_dict_copies_parameters_witness :
  exists A',
    load_state_dict small_net (state_dict ones_net) = Ok A' /\
    layers A' = layers ones_net /\ state_dict A' = state_dict ones_net /\
    dropout A' = dropout small_net /\ training A' = training small_net.
Proof.
  apply (load_state_dict_copies_parameters small_net ones_net).
  - constructor; [|constructor]. repeat split.
  - repeat split.
Defined.

(** X14: a model loads its own state dict and is left as it was
    ("All keys matched successfully"). *)
Theorem load_own_state_dict (net : Network) :
  load_state_dict net (state_dict net) = Ok net.
Proof.
  rewrite load_state_dict_same_layout.
  - destruct net; reflexivity.
  - induction (hidden_layers net); constructor; auto using same_layout_refl.
  - apply same_layout_refl.
Qed.

(** ** Which architectures a state dict fits *)

Lemma chain_okb_layers (ls : list Linear) (i : Z) :
  chain_okb i ls = true -> Forall (fun l => linear_okb l = true) ls.
Proof.
  revert i; induction ls as [|l ls IH]; intros i; simpl; [constructor|].
  rewrite !andb_true_iff; intros ((_ & Hl) & Hc); constructor; eauto.
Qed.

Lemma linear_okb_shapes (l : Linear) :
  linear_okb l = true ->
  shape (weight l) = [out_features l; in_features l] /\
  shape (bias l) = [out_features l].
Proof.
  unfold linear_okb; rewrite !andb_true_iff.
  intros (((( _ & Hw) & Hb) & _) & _); split; apply shape_eqb_eq; assumption.
Qed.

Lemma same_shapes_same_layout (a b : Linear) :
  linear_okb a = true -> linear_okb b = true ->
  shape (weight a) = shape (weight b) -> same_layout a b.
Proof.
  intros Ha Hb Hw.
  destruct (linear_okb_shapes a Ha) as [Wa Ba], (linear_okb_shapes b Hb) as [Wb Bb].
  rewrite Wa, Wb in Hw; injection Hw as Ho Hi.
  unfold same_layout; rewrite Wa, Wb, Ba, Bb, Ho, Hi; auto.
Qed.

Lemma chain_same_layout (la lb : list Linear) (oa ob : Linear) (i : Z) :
  chain_okb i (la ++ [oa]) = true -> chain_okb i (lb ++ [ob]) = true ->
  map out_features la = map out_features lb -> out_features oa = out_features ob ->
  Forall2 same_layout la lb /\ same_layout oa ob.
Proof.
  assert (Hl : forall a b j,
             (in_features a =? j)%Z && linear_okb a = true ->
             (in_features b =? j)%Z && linear_okb b = true ->
             out_features a = out_features b -> same_layout a b).
  { intros a b j; rewrite !andb_true_iff, !Z.eqb_eq; intros [Ia Ha] [Ib Hb] Ho.
    apply same_shapes_same_layout; try assumption.
    destruct (linear_okb_shapes a Ha) as [-> _], (linear_okb_shapes b Hb) as [-> _].
    congruence. }
  revert lb i; induction la as [|a la IH]; intros [|b lb] i;
    cbn [Datatypes.app chain_okb map]; try discriminate.
  - rewrite !andb_true_r; intros Ha Hb _ Ho; split; [constructor | eauto].
  - rewrite !andb_true_iff; intros [Ha Hca] [Hb Hcb] [= Ho Hm] Hoo.
    rewrite Ho in Hca; destruct (IH lb _ Hca Hcb Hm Hoo) as [F L].
    split; [constructor; [|exact F] | exact L].
    apply (Hl a b i); [apply andb_true_iff, Ha | apply andb_true_iff, Hb | exact Ho].
Qed.

Lemma lookup_hidden_beyond (ls : list Linear) (k0 k : nat) :
  k0 + length ls <= k ->
  lookup (weight_key (hidden_prefix k)) (hidden_state k0 ls) = None.
Proof.
  revert k0; induction ls as [|l ls IH]; intros k0 Hk; [reflexivity|].
  cbn [hidden_state]; unfold linear_state; cbn [Datatypes.app lookup].
  rewrite weight_key_neq, weight_bias_key_neq.
  replace (Nat.eqb k k0) with false
    by (symmetry; apply Nat.eqb_neq; simpl in Hk; lia).
  apply IH; simpl in Hk; lia.
Qed.

Lemma lookup_state_dict_beyond (net : Network) (k : nat) :
  length (hidden_layers net) <= k ->
  lookup (weight_key (hidden_prefix k)) (state_dict net) = None.
Proof.
  intros Hk; unfold state_dict; rewrite lookup_app, lookup_hidden_beyond by exact Hk.
  unfold linear_state; cbn [lookup].
  destruct (output_key_not_hidden k) as (H1 & _ & H2 & _).
  rewrite String.eqb_sym, H1, String.eqb_sym, H2; reflexivity.
Qed.

Lemma in_hidden_state (ls : list Linear) (k0 k : nat) (l : Linear) :
  nth_error ls k = Some l ->
  In (weight_key (hidden_prefix (k0 + k)), weight l) (hidden_state k0 ls).
Proof.
  revert k0 k; induction ls as [|l0 ls IH]; intros k0 [|k]; simpl nth_error;
    try discriminate; cbn [hidden_state]; unfold linear_state.
  - intros [= ->]; rewrite Nat.add_0_r; left; reflexivity.
  - intros H; right; right; rewrite Nat.add_succ_r; apply (IH (S k0) k H).
Qed.

Lemma Forall2_nth_error (A : Type) (P : A -> A -> Prop) (la lb : list A) :
  length la = length lb ->
  (forall k a b, nth_error la k = Some a -> nth_error lb k = Some b -> P a b) ->
  Forall2 P la lb.
Proof.
  revert lb; induction la as [|a la IH]; intros [|b lb]; simpl; try discriminate.
  - intros _ _; constructor.
  - intros [= Hl] H; constructor.
    + apply (H 0 a b); reflexivity.
    + apply IH; [exact Hl|]; intros k x y Hx Hy; apply (H (S k) x y Hx Hy).
Qed.

Lemma same_layout_architecture (A B : Network) :
  Forall2 same_layout (hidden_layers A) (hidden_layers B) ->
  same_layout (output A) (output B) ->
  architecture A = architecture B.
Proof.
  unfold architecture, net_input_size, hidden_sizes, net_output_size.
  intros F (Io & Oo & _); rewrite Oo; f_equal; f_equal.
  - destruct F as [|a b la lb (Ia & _) _]; simpl; assumption.
  - induction F as [|a b la lb (_ & Oa & _) _ IH]; simpl; congruence.
Qed.

Lemma load_iff_architecture (A B : Network) :
  network_okb A = true -> network_okb B = true ->
  (exists A', load_state_dict A (state_dict B) = Ok A') <->
  architecture A = architecture B.
Proof.
  unfold network_okb, layers; intros HA HB; split.
  - intros H; apply load_state_dict_ok_iff, error_msgs_nil_iff in H.
    destruct H as [H1 H2].
    pose proof (chain_okb_layers _ _ HA) as FA.
    pose proof (chain_okb_layers _ _ HB) as FB.
    apply Forall_app in FA, FB; destruct FA as [FA OA], FB as [FB OB].
    inversion OA as [|? ? OA' _]; inversion OB as [|? ? OB' _]; subst.
    rewrite Forall_forall in FA, FB.
    assert (Hlen : length (hidden_layers A) = length (hidden_layers B)).
    { destruct (Nat.lt_trichotomy (length (hidden_layers A)) (length (hidden_layers B)))
        as [Hlt|[Heq|Hgt]]; [exfalso | exact Heq | exfalso].
      - destruct (nth_error (hidden_layers B) (length (hidden_layers A))) as [l|] eqn:E;
          [|apply nth_error_None in E; lia].
        pose proof (in_hidden_state _ 0 _ _ E) as Hin; simpl in Hin.
        assert (Hk : In (weight_key (hidden_prefix (length (hidden_layers A))))
                        (map fst (state_dict B))).
        { apply in_map_iff; eexists; split; [|unfold state_dict; apply in_or_app; left;
                                               exact Hin]; reflexivity. }
        apply H2, lookup_in_keys in Hk; destruct Hk as (t & Ht).
        rewrite lookup_state_dict_beyond in Ht by lia; discriminate Ht.
      - destruct (nth_error (hidden_layers A) (length (hidden_layers B))) as [l|] eqn:E;
          [|apply nth_error_None in E; lia].
        pose proof (in_hidden_state _ 0 _ _ E) as Hin; simpl in Hin.
        destruct (H1 (weight_key (hidden_prefix (length (hidden_layers B)))) (weight l))
          as (t & Ht & _);
          [unfold state_dict; apply in_or_app; left; exact Hin|].
        rewrite lookup_state_dict_beyond in Ht by lia; discriminate Ht. }
    apply same_layout_architecture.
    + apply Forall2_nth_error; [exact Hlen|]; intros k a b Ea Eb.
      apply same_shapes_same_layout;
        [apply FA; eapply nth_error_In; eauto | apply FB; eapply nth_error_In; eauto |].
      pose proof (in_hidden_state _ 0 _ _ Ea) as Hin; simpl in Hin.
      destruct (H1 (weight_key (hidden_prefix k)) (weight a)) as (t & Ht & Hs);
        [unfold state_dict; apply in_or_app; left; exact Hin|].
      destruct (lookup_hidden (hidden_layers B) 0 k b
                              (linear_state "output" (output B)) Eb) as [Hw _].
      simpl in Hw; unfold state_dict in Ht; rewrite Hw in Ht; injection Ht as <-.
      symmetry; exact Hs.
    + apply same_shapes_same_layout; [exact OA' | exact OB' |].
      destruct (H1 (weight_key "output") (weight (output A))) as (t & Ht & Hs);
        [unfold state_dict; apply in_or_app; right; left; reflexivity|].
      destruct (lookup_output (hidden_layers B) (output B)) as [Hw _].
      unfold state_dict in Ht; rewrite Hw in Ht; injection Ht as <-.
      symmetry; exact Hs.
  - unfold architecture, hidden_sizes, net_output_size; intros [= Hi Hh Ho].
    rewrite Hi in HA.
    destruct (chain_same_layout _ _ _ _ _ HA HB Hh Ho) as [F L].
    eexists; apply load_state_dict_same_layout; assumption.
Qed.

(** X6: between two well-formed classifiers, [load_state_dict] accepts the
    state dict of the other one exactly when the two have the same
    architecture: the same input size, hidden sizes and output size. *)
Theorem load_state_dict_iff_same_architecture (A B : Network) :
  network_okb A = true -> network_okb B = true ->
  (exists A', load_state_dict A (state_dict B) = Ok A') <->
  architecture A = architecture B.
Proof. apply load_iff_architecture. Qed.

Lemma load_state_dict_iff_same_architecture_witness :
  (exists A', load_state_dict small_net (state_dict ones_net) = Ok A') <->
  architecture small_net = architecture ones_net.
Proof.
  apply (load_state_dict_iff_same_architecture small_net ones_net);
    vm_compute; reflexivity.
Defined.

(** ** Which classifiers survive the checkpoint cell *)

Lemma load_saved_checkpoint_inv iw ib (fs : Files) (filepath : string)
      (C C' : Network) :
  network_okb C = true ->
  load_checkpoint iw ib (save_checkpoint C filepath fs) filepath = Ok C' ->
  net_input_size C = 784%Z /\ net_output_size C = 10%Z.
Proof.
  intros HC; unfold load_checkpoint, save_checkpoint, torch_load, torch_save.
  rewrite String.eqb_refl; cbn [bind checkpoint ckpt_input_size ckpt_output_size
                                  ckpt_hidden_layers ckpt_state_dict].
  destruct (Network_init iw ib 784 10 (map out_features (hidden_layers C))
                         default_drop_p) as [fresh|] eqn:E; cbn [bind];
    [|discriminate].
  destruct (load_state_dict fresh (state_dict C)) as [m|] eqn:L; cbn [bind];
    [|discriminate]; intros _.
  destruct (Network_init_network_ok _ _ _ _ _ _ _ E) as (Hf & Hi & Ho).
  assert (Ha : architecture fresh = architecture C)
    by (apply load_iff_architecture; eauto).
  unfold architecture in Ha; injection Ha as Hi' _ Ho'; split; congruence.
Qed.

(** X4: for a well-formed classifier, [load_checkpoint] returns a classifier
    from the file written by the checkpoint cell exactly when the classifier
    has 784 inputs and 10 classes. *)
Theorem checkpoint_round_trip_iff iw ib (fs : Files) (filepath : string)
        (C : Network) :
  network_okb C = true ->
  (exists C', load_checkpoint iw ib (save_checkpoint C filepath fs) filepath = Ok C') <->
  (net_input_size C = 784%Z /\ net_output_size C = 10%Z).
Proof.
  intros HC; split.
  - intros (C' & H); apply (load_saved_checkpoint_inv iw ib fs filepath C C' HC H).
  - intros [Hi Ho]; eexists; apply load_saved_checkpoint; assumption.
Qed.

Lemma checkpoint_round_trip_iff_witness :
  (exists C', load_checkpoint zero_init zero_init
                (save_checkpoint small_net "checkpoint.pth" no_files)
                "checkpoint.pth" = Ok C') <->
  (net_input_size small_net = 784%Z /\ net_output_size small_net = 10%Z).
Proof.
  apply (checkpoint_round_trip_iff zero_init zero_init no_files "checkpoint.pth"
                                   small_net).
  vm_compute; reflexivity.
Defined.

(** X5: the classifier that [load_checkpoint] returns from the file of a
    well-formed classifier gives the same checkpoint when it is saved again,
    and loading that file returns this very classifier. *)
Theorem checkpoint_of_loaded iw ib (fs : Files) (filepath : string)
        (C C' : Network) :
  network_okb C = true ->
  load_checkpoint iw ib (save_checkpoint C filepath fs) filepath = Ok C' ->
  checkpoint C' = checkpoint C /\
  forall fs' filepath',
    load_checkpoint iw ib (save_checkpoint C' filepath' fs') filepath' = Ok C'.
Proof.
  intros HC H.
  destruct (load_saved_checkpoint_inv iw ib fs filepath C C' HC H) as [Hi Ho].
  rewrite (load_saved_checkpoint iw ib fs filepath C HC Hi Ho) in H.
  injection H as <-; split; [reflexivity|].
  intros fs' filepath'.
  rewrite load_saved_checkpoint; [reflexivity | exact HC | exact Hi | exact Ho].
Qed.

Lemma checkpoint_of_loaded_witness :
  checkpoint (mkNetwork (hidden_layers demo_net) (output demo_net)
                        default_drop_p true) = checkpoint demo_net /\
  forall fs' filepath',
    load_checkpoint zero_init zero_init
      (save_checkpoint (mkNetwork (hidden_layers demo_net) (output demo_net)
                                  default_drop_p true) filepath' fs') filepath' =
    Ok (mkNetwork (hidden_layers demo_net) (output demo_net) default_drop_p true).
Proof.
  apply (checkpoint_of_loaded zero_init zero_init no_files "checkpoint.pth" demo_net);
    vm_compute; reflexivity.
Defined.

(** ** More about the training loop *)

Lemma train_loop_add bstep (dl : DataLoader) (a b e : nat) (p : Params)
      (printed : list R) :
  train_loop bstep dl (a + b) e p printed =
  match snd (train_loop bstep dl a e p printed) with
  | Ok p' => train_loop bstep dl b (e + a) p' (fst (train_loop bstep dl a e p printed))
  | Raise ex => train_loop bstep dl a e p printed
  end.
Proof.
  revert e p printed; induction a as [|a IH]; intros e p printed.
  - simpl; rewrite Nat.add_0_r; reflexivity.
  - cbn [Nat.add train_loop].
    destruct (train_epoch bstep p (pass dl e) (loader_len dl)) as [r|ex];
      [|reflexivity].
    rewrite IH, Nat.add_succ_r; reflexivity.
Qed.

(** X9: training for [a + b] epochs is training for [a] epochs and, when
    these complete, going on for [b] epochs from the parameters reached, with
    the next passes of the loader; so what [a] epochs print is the beginning
    of what [a + b] epochs print, and an exception in the first [a] epochs is
    the outcome of the longer run. *)
Theorem train_more_epochs bstep (dl : DataLoader) (a b : nat) (p : Params) :
  train bstep dl (a + b) p =
    match snd (train bstep dl a p) with
    | Ok p' => train_loop bstep dl b a p' (fst (train bstep dl a p))
    | Raise ex => train bstep dl a p
    end /\
  exists rest, fst (train bstep dl (a + b) p) = fst (train bstep dl a p) ++ rest.
Proof.
  unfold train; split; [apply train_loop_add|].
  rewrite train_loop_add.
  destruct (snd (train_loop bstep dl a 0 p [])) as [p'|ex].
  - rewrite train_loop_losses; cbn [fst]; eexists; reflexivity.
  - exists []; now rewrite app_nil_r.
Qed.

Lemma loss_terms_ok_inv term (rs : list (list R)) (target : list Z) (ts : list R) :
  loss_terms term 10 rs target = Ok ts ->
  length rs = length target /\ forallb label_okb target = true.
Proof.
  revert target ts; induction rs as [|r rs IH]; intros [|y target] ts; simpl;
    try discriminate; [auto|].
  unfold label_okb at 1.
  destruct (y =? ignore_index)%Z; simpl.
  - intros H; destruct (IH _ _ H) as [-> ->]; auto.
  - destruct ((0 <=? y)%Z && (y <? 10)%Z); [|discriminate].
    destruct (loss_terms term 10 rs target) as [ts'|] eqn:E; [|discriminate].
    intros _; destruct (IH _ _ E) as [-> ->]; auto.
Qed.

(** X10: with parameters of the shapes of the model, one pass of the body of
    the training loop completes exactly on the batches of at least one image
    of 784 pixels with one label per image, each label being one of the ten
    classes or the ignored index; on every other batch it raises. *)
Theorem train_batch_succeeds_iff bstep (p : Params) (b : Batch) :
  params_okb p = true ->
  (exists r, train_batch bstep p b = Ok r) <-> batch_okb b = true.
Proof.
  intros Hp; split.
  - intros (r & H); revert H; unfold batch_okb, train_batch, view_flat.
    destruct (shape (fst b)) as [|n rest]; [discriminate|].
    destruct (n =? 0)%Z eqn:E0; [discriminate|]; cbn [bind].
    apply Z.eqb_neq in E0.
    destruct (numel rest =? 784)%Z eqn:Ew.
    + apply Z.eqb_eq in Ew.
      assert (Hx : shape (mkTensor [n; numel rest] (data (fst b))) = [n; 784%Z])
        by (simpl; congruence).
      destruct (model_logits_rows _ _ _ Hp Hx) as (rs & E1 & Hrs & Hc).
      rewrite model_logps_logits, E1; cbn [bind].
      rewrite (log_softmax_rows _ _ _ Hrs Hc); cbn [bind].
      unfold NLLLoss, criterion; cbn [bind shape].
      destruct (n =? len (snd b))%Z eqn:En; [|discriminate].
      apply Z.eqb_eq in En.
      destruct (loss_terms _ 10 _ (snd b)) as [ts|] eqn:Et; [|discriminate].
      intros _; apply loss_terms_ok_inv in Et; destruct Et as [_ ->].
      rewrite andb_true_r, !andb_true_iff, Z.ltb_lt, !Z.eqb_eq.
      unfold len in *; repeat split; lia.
    + unfold params_okb in Hp; rewrite !andb_true_iff in Hp.
      destruct Hp as ((H1 & _) & _); apply has_features_spec in H1.
      destruct H1 as (I1 & _ & _).
      unfold model_logps; cbn [sequential_forward module_forward].
      unfold linear_forward; cbn [shape]; rewrite I1, Ew; discriminate.
  - intros Hb; unfold batch_okb, train_batch, view_flat in *.
    destruct (shape (fst b)) as [|n rest]; [discriminate|].
    rewrite !andb_true_iff, Z.ltb_lt, !Z.eqb_eq in Hb.
    destruct Hb as (((Hn & Hr) & Hl) & Hy).
    destruct (n =? 0)%Z eqn:E; [apply Z.eqb_eq in E; lia|]; cbn [bind].
    assert (Hx : shape (mkTensor [n; numel rest] (data (fst b))) = [n; 784%Z])
      by (simpl; congruence).
    destruct (model_logits_rows _ _ _ Hp Hx) as (rs & E1 & Hrs & Hc).
    rewrite model_logps_logits, E1; cbn [bind].
    rewrite (log_softmax_rows _ _ _ Hrs Hc); cbn [bind].
    unfold NLLLoss, criterion; cbn [bind shape].
    rewrite Hl, Z.eqb_refl, rows_concat
      by (rewrite ?length_map; auto using Forall_log_softmax_length).
    destruct (loss_terms_ok (fun r y => (- nth y r 0)%R) (map log_softmax_row rs) (snd b))
      as (ts & Ets); [rewrite length_map; unfold len in Hl; lia | exact Hy |].
    rewrite Ets; cbn [bind]; eexists; reflexivity.
Qed.

Lemma train_batch_succeeds_iff_witness :
  (exists r, train_batch no_update zero_params blank_batch = Ok r) <->
  batch_okb blank_batch = true.
Proof.
  apply (train_batch_succeeds_iff no_update zero_params blank_batch).
  vm_compute; reflexivity.
Defined.

(** ** The losses are not negative *)

Lemma exp_le_Rsum (r : list R) (x : R) :
  In x r -> (exp x <= Rsum (map exp r))%R.
Proof.
  induction r as [|a r IH]; simpl; [tauto|].
  assert (H0 : (0 <= Rsum (map exp r))%R).
  { clear; induction r as [|y r IH]; simpl; [lra|]. pose proof (exp_pos y); lra. }
  intros [->|H]; [lra|].
  specialize (IH H); pose proof (exp_pos a); lra.
Qed.

Lemma ratio_bounds (r : list R) (x : R) :
  In x r -> (0 < exp x / Rsum (map exp r) <= 1)%R.
Proof.
  intros Hin.
  assert (Hr : r <> []) by (intros ->; destruct Hin).
  pose proof (Rsum_exp_pos r Hr) as Hs.
  pose proof (exp_le_Rsum r x Hin) as Hle.
  pose proof (exp_pos x) as Hx.
  split; [apply Rdiv_lt_0_compat; assumption|].
  apply (Rmult_le_reg_r (Rsum (map exp r))); [exact Hs|].
  unfold Rdiv; rewrite Rmult_assoc, Rinv_l by lra; lra.
Qed.

Lemma log_ratio_nonpos (r : list R) (x : R) :
  In x r -> (ln (exp x / Rsum (map exp r)) <= 0)%R.
Proof.
  intros Hin; destruct (ratio_bounds r x Hin) as [Hq0 [Hq1|Hq1]];
    [|rewrite Hq1, ln_1; lra].
  pose proof (ln_increasing _ _ Hq0 Hq1) as H; rewrite ln_1 in H; lra.
Qed.

Lemma Rsum_nonneg (l : list R) : Forall (fun v => (0 <= v)%R) l -> (0 <= Rsum l)%R.
Proof. induction 1; simpl; lra. Qed.

Lemma mean_nonneg (l : list R) :
  l <> [] -> Forall (fun v => (0 <= v)%R) l -> (0 <= mean l)%R.
Proof.
  intros Hl H; unfold mean, Rdiv; apply Rmult_le_pos; [apply Rsum_nonneg, H|].
  left; apply Rinv_0_lt_compat, lt_0_INR.
  destruct l; [congruence | simpl; lia].
Qed.

Lemma loss_terms_counted term (c : Z) (rs : list (list R)) (target : list Z)
      (ts : list R) :
  loss_terms term c rs target = Ok ts -> some_counted target = true -> ts <> [].
Proof.
  revert target ts; induction rs as [|r rs IH]; intros [|y target] ts; simpl;
    try discriminate.
  destruct (y =? ignore_index)%Z; simpl; [apply IH|].
  destruct ((0 <=? y)%Z && (y <? c)%Z); [|discriminate].
  destruct (loss_terms term c rs target); simpl; [|discriminate].
  intros [= <-] _; discriminate.
Qed.

Lemma cross_entropy_terms_nonneg (c : Z) (rs : list (list R)) (target : list Z)
      (ts : list R) :
  Forall (fun r => length r = Z.to_nat c) rs ->
  loss_terms (fun r y => (- ln (exp (nth y r 0) / Rsum (map exp r)))%R) c rs target =
    Ok ts ->
  Forall (fun v => (0 <= v)%R) ts.
Proof.
  intros H; revert target ts; induction H as [|r rs Hr _ IH]; intros [|y target] ts;
    simpl; try discriminate; [intros [= <-]; constructor|].
  destruct (y =? ignore_index)%Z; [apply IH|].
  destruct (0 <=? y)%Z eqn:H0; [|discriminate].
  destruct (y <? c)%Z eqn:Hc; [|discriminate]; simpl.
  destruct (loss_terms _ c rs target) as [ts'|] eqn:E; [|discriminate].
  intros [= <-]; constructor; [|apply (IH _ _ E)].
  apply Z.leb_le in H0; apply Z.ltb_lt in Hc.
  assert (Hin : In (nth (Z.to_nat y) r 0%R) r) by (apply nth_In; lia).
  pose proof (log_ratio_nonpos r _ Hin); lra.
Qed.

Lemma cross_entropy_rows_nonneg (n c : Z) (rs : list (list R)) (target : list Z)
      (loss : R) :
  length rs = Z.to_nat n -> Forall (fun r => length r = Z.to_nat c) rs ->
  some_counted target = true ->
  CrossEntropyLoss (mkTensor [n; c] (concat rs)) target = Ok loss ->
  (0 <= loss)%R.
Proof.
  intros Hn Hc Hy; unfold CrossEntropyLoss, criterion; cbn [shape].
  destruct (n =? len target)%Z; [|discriminate].
  rewrite rows_concat by assumption.
  destruct (loss_terms _ c rs target) as [ts|] eqn:E; [|discriminate].
  intros [= <-]; apply mean_nonneg;
    [apply (loss_terms_counted _ c rs target ts E Hy) |
     apply (cross_entropy_terms_nonneg c rs target ts Hc E)].
Qed.

(** X7: on a well-formed batch of scores and labels of which at least one
    is not the ignored index, a loss that [nn.CrossEntropyLoss] returns is
    not negative, and it is the loss that [nn.NLLLoss] returns on the
    log-softmax of the scores. *)
Theorem loss_nonnegative (logits : Tensor) (target : list Z) (n c : Z) (loss : R) :
  tensor_okb logits = true -> shape logits = [n; c] ->
  some_counted target = true ->
  CrossEntropyLoss logits target = Ok loss ->
  (0 <= loss)%R /\
  exists logps, log_softmax logits = Ok logps /\ NLLLoss logps target = Ok loss.
Proof.
  intros Hok Hs Hy.
  destruct (tensor_ok_2d _ _ _ Hok Hs) as (_ & _ & Hl).
  destruct logits as [s d]; simpl in Hs, Hl; subst s.
  rewrite <- (concat_chunks _ _ d Hl).
  pose proof (chunks_full _ _ d Hl) as Hc.
  pose proof (chunks_length (Z.to_nat n) (Z.to_nat c) d) as Hn.
  intros H; split; [apply (cross_entropy_rows_nonneg _ _ _ _ _ Hn Hc Hy H)|].
  eexists; split; [apply log_softmax_rows; assumption|].
  rewrite <- criteria_agree_on_rows by assumption; exact H.
Qed.

Lemma loss_nonnegative_witness :
  (0 <= mean [(- ln (exp 3 / Rsum (map exp [1; 2; 3])))%R;
              (- ln (exp 0 / Rsum (map exp [0; -1; 5])))%R])%R /\
  exists logps,
    log_softmax small_logits = Ok logps /\
    NLLLoss logps [2; 0]%Z =
      Ok (mean [(- ln (exp 3 / Rsum (map exp [1; 2; 3])))%R;
                (- ln (exp 0 / Rsum (map exp [0; -1; 5])))%R]).
Proof.
  apply (loss_nonnegative small_logits [2; 0]%Z 2 3); reflexivity.
Defined.



Lemma pass_losses_params bstep (bs : list Batch) (p : Params) r :
  (forall q x y, params_okb q = true -> params_okb (bstep q x y) = true) ->
  params_okb p = true -> forallb batch_okb bs = true ->
  pass_losses bstep p bs = Ok r -> params_okb (fst r) = true.
Proof.
  intros Hstep Hp Hb E.
  destruct (pass_losses_ok bstep bs p Hstep Hp Hb) as (r' & E' & Hr').
  congruence.
Qed.

Lemma loop_losses_params bstep (dl : DataLoader) (epochs e : nat) (p p' : Params) :
  (forall q x y, params_okb q = true -> params_okb (bstep q x y) = true) ->
  params_okb p = true ->
  (forall k, forallb batch_okb (pass dl k) = true) ->
  snd (loop_losses bstep dl epochs e p) = Ok p' -> params_okb p' = true.
Proof.
  intros Hstep Hp Hb; revert e p Hp; induction epochs as [|epochs IH];
    intros e p Hp; simpl.
  - intros [= <-]; exact Hp.
  - destruct (pass_losses bstep p (pass dl e)) as [r|ex] eqn:E; cbn [snd];
      [|discriminate].
    destruct (loader_len dl =? 0)%Z; cbn [snd]; [discriminate|].
    apply IH, (pass_losses_params bstep _ _ _ Hstep Hp (Hb e) E).
Qed.





(** ** Stochastic gradient descent *)

Lemma sgd_tensor_okb (lr : R) (w g : Tensor) :
  tensor_okb w = true -> like_okb w g = true ->
  tensor_okb (sgd_tensor lr w g) = true.
Proof.
  unfold tensor_okb, like_okb, sgd_tensor, len; cbn [shape data].
  rewrite !andb_true_iff, !Z.eqb_eq; intros [Hs Hl] [_ Hg]; split; [exact Hs|].
  rewrite length_map, length_combine; lia.
Qed.

Lemma sgd_linear_okb (lr : R) (l g : Linear) (i o : Z) :
  has_features l i o = true ->
  like_okb (weight l) (weight g) = true -> like_okb (bias l) (bias g) = true ->
  has_features (sgd_linear lr l g) i o = true.
Proof.
  unfold has_features, linear_okb; cbn [sgd_linear in_features out_features weight bias].
  rewrite !andb_true_iff.
  intros ((Hi & Ho) & (((((H1 & H2) & H3) & H4) & H5) & H6)) Gw Gb.
  repeat split; try assumption; apply sgd_tensor_okb; assumption.
Qed.

Lemma sgd_step_okb (lr : R) (p g : Params) :
  params_okb p = true -> grads_okb p g = true ->
  params_okb (sgd_step lr p g) = true.
Proof.
  unfold params_okb, grads_okb, sgd_step; cbn [fc1 fc2 fc3].
  rewrite !andb_true_iff.
  intros ((H1 & H2) & H3) (((((G1 & G2) & G3) & G4) & G5) & G6).
  repeat split; apply sgd_linear_okb; assumption.
Qed.

(** X11: with [optim.SGD] as the optimizer and gradients that have the
    shapes of their parameters, the loop over a non-empty loader of
    well-shaped batches completes, prints one loss per epoch, and ends with
    parameters of the shapes of the model: training never changes the
    architecture. *)
Theorem sgd_training_keeps_shapes (lr : R)
        (gradient : Params -> Tensor -> list Z -> Params)
        (dl : DataLoader) (epochs : nat) (p : Params) :
  (forall q x y, params_okb q = true -> grads_okb q (gradient q x y) = true) ->
  params_okb p = true -> loader_len dl <> 0%Z ->
  (forall k, forallb batch_okb (pass dl k) = true) ->
  exists p',
    snd (train (sgd_backward_and_step lr gradient) dl epochs p) = Ok p' /\
    params_okb p' = true /\
    length (fst (train (sgd_backward_and_step lr gradient) dl epochs p)) = epochs.
Proof.
  intros Hg Hp Hn Hb.
  assert (Hstep : forall q x y, params_okb q = true ->
            params_okb (sgd_backward_and_step lr gradient q x y) = true).
  { intros q x y Hq; unfold sgd_backward_and_step; apply sgd_step_okb; auto. }
  destruct (loop_losses_ok _ dl epochs 0 p Hstep Hp Hn Hb) as (p' & losses & E & Hl).
  exists p'; unfold train; rewrite train_loop_losses, E; cbn [fst snd Datatypes.app].
  rewrite length_map; repeat split; [|exact Hl].
  apply (loop_losses_params _ dl epochs 0 p p' Hstep Hp Hb); rewrite E; reflexivity.
Qed.

Lemma sgd_training_keeps_shapes_witness :
  exists p',
    snd (train (sgd_backward_and_step 0.003 weights_as_gradient)
               blank_loader 3 zero_params) = Ok p' /\
    params_okb p' = true /\
    length (fst (train (sgd_backward_and_step 0.003 weights_as_gradient)
                       blank_loader 3 zero_params)) = 3.
Proof.
  apply (sgd_training_keeps_shapes 0.003 weights_as_gradient blank_loader 3 zero_params).
  - intros q x y _; unfold grads_okb, like_okb, weights_as_gradient.
    rewrite !shape_eqb_refl, !Z.eqb_refl; reflexivity.
  - vm_compute; reflexivity.
  - discriminate.
  - intros k; vm_compute; reflexivity.
Defined.

(** ** The prediction cell of Part 3 *)



(** ** The autograd cells of Part 3 *)

Lemma Rsum_app (a b : list R) : Rsum (a ++ b) = (Rsum a + Rsum b)%R.
Proof. induction a as [|x a IH]; simpl; [ring | rewrite IH; ring]. Qed.

Lemma mean_squares_entry (d : list R) (i : nat) (v : R) :
  i < length d ->
  torch_mean (torch_square (mkTensor [] (firstn i d ++ v :: skipn (S i) d))) =
  ((Rsum (map (fun u => u * u) (firstn i d)) +
    (v * v + Rsum (map (fun u => u * u) (skipn (S i) d)))) * / INR (length d))%R.
Proof.
  intros Hi; unfold torch_mean, torch_square, mean; cbn [data].
  rewrite length_map, length_app, map_app, Rsum_app; cbn [length map Rsum fold_right].
  rewrite length_firstn, length_skipn.
  replace (Nat.min i (length d) + S (length d - S i)) with (length d) by lia.
  reflexivity.
Qed.

Lemma grad_mean_squares (x : Tensor) (i : nat) :
  i < length (data x) ->
  is_grad_entry (fun t => torch_mean (torch_square t)) x i
                (2 * nth i (data x) 0 / INR (length (data x)))%R.
Proof.
  intros Hi; unfold is_grad_entry.
  set (d := data x) in *; set (x0 := nth i d 0%R).
  set (a := Rsum (map (fun u => (u * u)%R) (firstn i d))).
  set (b := Rsum (map (fun u => (u * u)%R) (skipn (S i) d))).
  apply (derivable_pt_lim_ext
           (mult_real_fct (/ INR (length d))
              (plus_fct (fct_cte a) (plus_fct (mult_fct id id) (fct_cte b))))).
  - intros v; unfold mult_real_fct, plus_fct, mult_fct, fct_cte, id, set_entry.
    unfold torch_mean, torch_square, mean; cbn [data].
    fold d.
    pose proof (mean_squares_entry d i v Hi) as H.
    unfold torch_mean, torch_square, mean in H; cbn [data] in H.
    rewrite H; fold a b; ring.
  - replace (2 * x0 / INR (length d))%R
      with (/ INR (length d) * (0 + ((1 * id x0 + id x0 * 1) + 0)))%R
      by (unfold id, Rdiv; ring).
    apply derivable_pt_lim_scal, derivable_pt_lim_plus;
      [apply derivable_pt_lim_const|].
    apply derivable_pt_lim_plus; [|apply derivable_pt_lim_const].
    apply derivable_pt_lim_mult; apply derivable_pt_lim_id.
Qed.

(** X13: for a tensor [x] of shape (2, 2), the partial derivative of
    [z = (x**2).mean()] along each entry of [x], which is what
    [z.backward()] leaves in [x.grad], is the entry of [x/2] at the same
    place: the two tensors that the notebook prints are equal. *)
Theorem grad_of_mean_of_squares (x : Tensor) (i : nat) :
  tensor_okb x = true -> shape x = [2; 2]%Z -> i < 4 ->
  is_grad_entry (fun t => torch_mean (torch_square t)) x i
                (nth i (data (torch_div x 2)) 0%R).
Proof.
  intros Hok Hs Hi.
  destruct (tensor_ok_2d _ _ _ Hok Hs) as (_ & _ & Hl).
  change (Z.to_nat 2 * Z.to_nat 2) with 4 in Hl.
  pose proof (grad_mean_squares x i ltac:(lia)) as H.
  rewrite Hl in H.
  replace (nth i (data (torch_div x 2)) 0%R)
    with (2 * nth i (data x) 0 / INR 4)%R; [exact H|].
  unfold torch_div; cbn [data].
  rewrite (nth_indep (map (fun v => (v / 2)%R) (data x)) 0%R (0 / 2)%R)
    by (rewrite length_map; lia).
  rewrite (map_nth (fun v => (v / 2)%R)); simpl; field.
Qed.

Lemma grad_of_mean_of_squares_witness :
  is_grad_entry (fun t => torch_mean (torch_square t)) small_square 1
                (nth 1 (data (torch_div small_square 2)) 0%R).
Proof.
  apply (grad_of_mean_of_squares small_square 1); [reflexivity | reflexivity | lia].
Defined.

(** ** The transform of the images *)

(** X15: the transform of both notebooks maps the bytes of an image, each
    between 0 and 255, to a one-channel tensor with one entry per byte, and
    every entry lies between -1 and 1. *)
Theorem transform_range (h w : Z) (pixels : list Z) :
  Forall (fun v => (0 <= v <= 255)%Z) pixels ->
  shape (transform h w pixels) = [1; h; w]%Z /\
  length (data (transform h w pixels)) = length pixels /\
  Forall (fun x => (-1 <= x <= 1)%R) (data (transform h w pixels)).
Proof.
  intros H; unfold transform, Normalize, ToTensor; cbn [shape data].
  split; [reflexivity|]; split; [now rewrite !length_map|].
  apply Forall_map, Forall_map; revert H; apply Forall_impl; intros v [H0 H1].
  apply IZR_le in H0, H1; lra.
Qed.

Lemma transform_range_witness :
  shape (transform 1 3 [0; 128; 255]%Z) = [1; 1; 3]%Z /\
  length (data (transform 1 3 [0; 128; 255]%Z)) = length [0; 128; 255]%Z /\
  Forall (fun x => (-1 <= x <= 1)%R) (data (transform 1 3 [0; 128; 255]%Z)).
Proof.
  apply (transform_range 1 3 [0; 128; 255]%Z).
  repeat constructor; lia.
Defined.

(** ** The names of the parameters *)

Lemma lookup_NoDup (sd : StateDict) (key : string) (t : Tensor) :
  NoDup (map fst sd) -> In (key, t) sd -> lookup key sd = Some t.
Proof.
  induction sd as [|[k u] sd IH]; simpl; [tauto|].
  intros Hnd [[= -> ->]|Hin]; [now rewrite String.eqb_refl|].
  inversion Hnd as [|? ? Hk Hnd']; subst.
  destruct (String.eqb_spec key k) as [->|_]; [|auto].
  exfalso; apply Hk, in_map_iff; exists (k, t); auto.
Qed.

Lemma hidden_keys_from (ls : list Linear) (k0 : nat) (key : string) :
  In key (map fst (hidden_state k0 ls)) ->
  exists k, k0 <= k /\
            (key = weight_key (hidden_prefix k) \/ key = bias_key (hidden_prefix k)).
Proof.
  revert k0; induction ls as [|l ls IH]; intros k0; simpl; [tauto|].
  intros [<-|[<-|H]]; [exists k0; auto | exists k0; auto |].
  destruct (IH _ H) as (k & Hk & Hkey); exists k; split; [lia | exact Hkey].
Qed.

Lemma NoDup_hidden_keys (ls : list Linear) (k0 : nat) :
  NoDup (map fst (hidden_state k0 ls)).
Proof.
  revert k0; induction ls as [|l ls IH]; intros k0; simpl; constructor.
  - intros [H|H].
    + symmetry in H; apply hidden_key_inj in H; destruct H as [_ H]; discriminate H.
    + apply hidden_keys_from in H; destruct H as (k & Hk & [H|H]);
        apply hidden_key_inj in H; destruct H as [H1 H2];
        [lia | discriminate H2].
  - constructor; [|apply IH].
    intros H; apply hidden_keys_from in H; destruct H as (k & Hk & [H|H]);
      apply hidden_key_inj in H; destruct H as [H1 H2];
      [discriminate H2 | lia].
Qed.

Lemma hidden_state_length (ls : list Linear) (k0 : nat) :
  length (hidden_state k0 ls) = 2 * length ls.
Proof.
  revert k0; induction ls as [|l ls IH]; intros k0; simpl; [reflexivity|].
  rewrite IH; lia.
Qed.

(** X16: the state dict of a classifier has two entries per layer, no
    parameter name occurs twice in it, and looking a name up returns the
    tensor stored under this name. *)
Theorem state_dict_names_distinct (net : Network) :
  length (state_dict net) = 2 * (length (hidden_layers net) + 1) /\
  NoDup (map fst (state_dict net)) /\
  forall key t, In (key, t) (state_dict net) -> lookup key (state_dict net) = Some t.
Proof.
  assert (Hnd : NoDup (map fst (state_dict net))).
  { unfold state_dict; rewrite map_app; apply NoDup_app.
    - apply NoDup_hidden_keys.
    - repeat constructor; simpl; [intros [H|[]]; discriminate H | tauto].
    - intros key H [<-|[<-|[]]]; apply hidden_keys_from in H;
        destruct H as (k & _ & [H|H]); discriminate H. }
  split; [|split; [exact Hnd | intros key t; apply lookup_NoDup, Hnd]].
  unfold state_dict; rewrite length_app, hidden_state_length; simpl; lia.
Qed.
